(** * Drive routes of the hiking club API

    A shallow embedding of the Express router that serves [api/drives]
    (date validation, drive life cycle, group membership, comments) and of
    the document shape declared in [models/Drive.js], together with the
    properties of its behavioural contract. *)

From Stdlib Require Import ZArith Lia Ascii String List Bool Sorted Permutation.
From stdpp Require Import base option list strings gmap.

Local Open Scope string_scope.
Local Open Scope Z_scope.

(** ** The JavaScript primitives the router relies on *)

Module JS.

(** Numbers produced by [parseInt] and by the [Date] getters: [NaN] or an
    integer.  Every token that reaches a comparison is at most eight
    characters long, so the integers are exact. *)
Inductive Number : Type :=
| NaN
| Num (z : Z).

(** Relational operators: any comparison with [NaN] is [false]. *)
Definition lt (a b : Number) : bool :=
  match a, b with Num x, Num y => x <? y | _, _ => false end.
Definition le (a b : Number) : bool :=
  match a, b with Num x, Num y => x <=? y | _, _ => false end.
Definition gt (a b : Number) : bool :=
  match a, b with Num x, Num y => y <? x | _, _ => false end.
Definition eq (a b : Number) : bool :=
  match a, b with Num x, Num y => x =? y | _, _ => false end.

(** [str.split(sep)] for a one character separator. *)
Fixpoint split (sep : ascii) (s : string) : list string :=
  match s with
  | EmptyString => [EmptyString]
  | String c r =>
      if Ascii.eqb c sep then EmptyString :: split sep r
      else match split sep r with
           | h :: t => String c h :: t
           | [] => [String c EmptyString]
           end
  end.

Definition code (c : ascii) : Z := Z.of_N (N_of_ascii c).

(** White space skipped by [parseInt], among the characters below 256:
    TAB, LF, VT, FF, CR, SP, NBSP. *)
Definition is_white (c : ascii) : bool :=
  let n := code c in
  ((9 <=? n) && (n <=? 13)) || (n =? 32) || (n =? 160).

Fixpoint trim_start (s : string) : string :=
  match s with
  | String c r => if is_white c then trim_start r else s
  | EmptyString => s
  end.

(** Value of a character as a digit in the given radix. *)
Definition digit_val (radix : Z) (c : ascii) : option Z :=
  let n := code c in
  let v := if (48 <=? n) && (n <=? 57) then n - 48
           else if (97 <=? n) && (n <=? 122) then n - 87
           else if (65 <=? n) && (n <=? 90) then n - 55
           else radix in
  if v <? radix then Some v else None.

(** Longest prefix of digits, read in the radix; [None] when it is empty. *)
Fixpoint digits (radix : Z) (s : string) (acc : Z) (seen : bool) : option Z :=
  match s with
  | String c r =>
      match digit_val radix c with
      | Some v => digits radix r (acc * radix + v) true
      | None => if seen then Some acc else None
      end
  | EmptyString => if seen then Some acc else None
  end.

(** [parseInt(str)] with the radix left undefined: leading white space, an
    optional sign, an optional [0x] prefix, then the digits. *)
Definition parseInt (str : string) : Number :=
  let s1 := trim_start str in
  let '(sign, s2) :=
    match s1 with
    | String c r =>
        if Ascii.eqb c "-" then (-1, r)
        else if Ascii.eqb c "+" then (1, r)
        else (1, s1)
    | EmptyString => (1, s1)
    end in
  let '(radix, s3) :=
    match s2 with
    | String c0 (String c1 r) =>
        if Ascii.eqb c0 "0" && (Ascii.eqb c1 "x" || Ascii.eqb c1 "X")
        then (16, r) else (10, s2)
    | _ => (10, s2)
    end in
  match digits radix s3 0 false with
  | Some n => Num (sign * n)
  | None => NaN
  end.

(** The three getters read from [new Date()]; [getMonth] counts from 0. *)
Record Date : Type := mkDate {
  getDate : Z;
  getMonth : Z;
  getFullYear : Z
}.

(** [arr.indexOf(x)] on strings: first position, or -1. *)
Fixpoint indexOf_from (i : Z) (x : string) (l : list string) : Z :=
  match l with
  | [] => -1
  | y :: r => if String.eqb y x then i else indexOf_from (i + 1) x r
  end.
Definition indexOf (x : string) (l : list string) : Z := indexOf_from 0 x l.

(** [arr.splice(start, 1)]: a negative start counts from the end, and a
    start past the end removes nothing. *)
Fixpoint remove_at {A} (n : nat) (l : list A) : list A :=
  match l, n with
  | [], _ => []
  | _ :: r, O => r
  | x :: r, S k => x :: remove_at k r
  end.
Definition splice1 {A} (start : Z) (l : list A) : list A :=
  let len := Z.of_nat (length l) in
  let from := if start <? 0 then Z.max (len + start) 0 else Z.min start len in
  remove_at (Z.to_nat from) l.

(** [Number.MAX_SAFE_INTEGER + 1]: up to this size every integer is a
    Number. *)
Definition safe_integer : Z := 9007199254740992.

(** The Number nearest to an integer, ties to the even significand; the
    overflow to [Infinity], from [2^1024] on, is left out. *)
Definition round (z : Z) : Z :=
  let a := Z.abs z in
  if a <=? safe_integer then z else
  let ulp := 2 ^ (Z.log2 a - 52) in
  let q := a / ulp in
  let r := a mod ulp in
  let m := if 2 * r <? ulp then q
           else if ulp <? 2 * r then q + 1
           else if Z.even q then q else q + 1 in
  Z.sgn z * (m * ulp).

(** [a + b] and [a - b] on integer-valued Numbers. *)
Definition plus (a b : Z) : Z := round (a + b).
Definition minus (a b : Z) : Z := round (a - b).

(** Truthiness of an optional string property. *)
Definition truthy (o : option string) : bool :=
  match o with
  | Some s => negb (String.eqb s "")
  | None => false
  end.

End JS.

(** ** The [leavingDate] validator *)

Inductive Verdict : Type :=
| Pass
| Thrown (msg : string).

Section DateValidation.
Variable curr : JS.Date.

Let d := JS.Num (JS.getDate curr).
Let m := JS.Num (JS.getMonth curr).
Let y := JS.Num (JS.getFullYear curr).

(** The condition under which the validator throws its temporal error;
    [date[i]] past the end is [undefined], which compares like [NaN]. *)
Definition not_current_or_future (date : list JS.Number) : bool :=
  let date0 := nth 0 date JS.NaN in
  let date1 := nth 1 date JS.NaN in
  let date2 := nth 2 date JS.NaN in
  (JS.lt date0 m && JS.eq date2 y)
  || (JS.le date0 m && JS.lt date1 d && JS.eq date2 y)
  || JS.lt date2 y
  || JS.gt date0 (JS.Num 12)
  || JS.gt date1 (JS.Num 31)
  || JS.le date1 (JS.Num 0).

(** The custom validator of [POST api/drives]; [!date] is [false], an
    array being truthy. *)
Definition leavingDate_custom_create (leavingDate : string) : Verdict :=
  let date := map JS.parseInt (JS.split "/" leavingDate) in
  if false || negb (length date =? 3)%nat
     || negb (String.length leavingDate =? 10)%nat
  then Thrown "Invalid Date, Check Zeroes"
  else if not_current_or_future date
  then Thrown "Please Enter a Current or Future Date"
  else Pass.

(** The custom validator of [PUT api/drives/:id]. *)
Definition leavingDate_custom_update (leavingDate : string) : Verdict :=
  let date := map JS.parseInt (JS.split "/" leavingDate) in
  if negb (length date =? 3)%nat
     || negb (String.length leavingDate =? 10)%nat
  then Thrown "Invalid Date, Check Zeroes"
  else if not_current_or_future date
  then Thrown "Please Enter a Current or Future Date"
  else Pass.

End DateValidation.

(** ** Documents

    Identifiers are the hexadecimal strings that [toString()] and [.id]
    yield.  Seat counts are the integer-valued Numbers, and their sums and
    differences are rounded as Numbers are ([JS.plus], [JS.minus]).  The
    drive and its group entries have the paths that [models/Drive.js]
    declares: what the router passes under another name is not stored. *)

Module User.
(** A user document as loaded with [select('-password')]. *)
Record t : Type := mk {
  name : string;
  email : string;
  phone : string;
  avatar : string
}.
End User.

Module Profile.
(** The profile properties the router reads; each may be undefined. *)
Record t : Type := mk {
  grade : option string;
  type : option string;
  exp : option string;
  skills : option (list string)
}.
End Profile.

Module Member.
(** An entry of [drive.group]. *)
Record t : Type := mk {
  user : string;
  name : string;
  avatar : string;
  grade : option string;
  type : option string;
  skills : option (list string);
  date : Z
}.
End Member.

Module Comment.
(** An entry of [drive.comments]. *)
Record t : Type := mk {
  id : string;
  user : string;
  text : string;
  name : string;
  avatar : string;
  date : Z
}.
End Comment.

Module Drive.
(** A drive document; [resort] is the destination. *)
Record t : Type := mk {
  user : string;
  name : string;
  avatar : string;
  leavingDate : string;
  leavingTime : string;
  resort : string;
  seats : Z;
  description : string;
  group : list Member.t;
  comments : list Comment.t;
  date : Z
}.
End Drive.

Module Body.
(** [req.body] of create and update; a property may be missing. *)
Record t : Type := mk {
  leavingDate : option string;
  leavingTime : option string;
  hike : option string;
  seats : option Z;
  description : option string
}.
End Body.

(** The three collections. *)
Record Store : Type := mkStore {
  users : gmap string User.t;
  profiles : gmap string Profile.t;
  drives : gmap string Drive.t
}.

Definition with_drives (st : Store) (ds : gmap string Drive.t) : Store :=
  mkStore (users st) (profiles st) ds.

(** ** Responses and exceptions *)

Record FieldError : Type := mkFieldError {
  msg : string;
  param : string
}.

Inductive Payload : Type :=
| JsonDrive (drive : Drive.t)
| JsonGroup (group : list Member.t)
| JsonComments (comments : list Comment.t)
| JsonMsg (msg : string)
| JsonErrors (errors : list FieldError)
| Send (text : string).

Record Response : Type := mkResponse {
  status : Z;
  payload : Payload
}.

(** [res.json(x)] answers with status 200 unless [res.status] was called. *)
Definition json (p : Payload) : Response := mkResponse 200 p.
Definition status_json (code : Z) (m : string) : Response :=
  mkResponse code (JsonMsg m).
Definition server_error : Response := mkResponse 500 (Send "Server Error").

Inductive Exn : Type :=
| CastError (kind : string)
| TypeError
| ReferenceError
| StoreError.

Definition kind (err : Exn) : option string :=
  match err with
  | CastError k => Some k
  | _ => None
  end.

(** The body of a [try] block: a value, or a thrown exception. *)
Inductive Outcome (A : Type) : Type :=
| Ok (a : A)
| Throw (err : Exn).
Arguments Ok {A} a.
Arguments Throw {A} err.

Definition bind {A B} (o : Outcome A) (k : A -> Outcome B) : Outcome B :=
  match o with
  | Ok a => k a
  | Throw e => Throw e
  end.

Notation "'let*' x ':=' e 'in' k" := (bind e (fun x => k))
  (at level 10, x name, e at level 100, k at level 200).

(** Reading a property of a value that may be [null]. *)
Definition deref {A} (o : option A) : Outcome A :=
  match o with
  | Some a => Ok a
  | None => Throw TypeError
  end.

(** [arr.filter(f)] where the callback may throw. *)
Fixpoint filter_try {A} (f : A -> Outcome bool) (l : list A) : Outcome (list A) :=
  match l with
  | [] => Ok []
  | x :: r =>
      let* keep := f x in
      let* rest := filter_try f r in
      Ok (if keep then x :: rest else rest)
  end.

(** The three [catch] blocks of the router. *)
Definition is_ObjectId (err : Exn) : bool :=
  match kind err with
  | Some k => String.eqb k "ObjectId"
  | None => false
  end.

Definition catch_404 (err : Exn) : Response :=
  if is_ObjectId err then status_json 404 "Drive not found" else server_error.
Definition catch_400 (err : Exn) : Response :=
  if is_ObjectId err then status_json 400 "Drive not found" else server_error.
Definition catch_500 (err : Exn) : Response := server_error.

Definition try_catch (st : Store) (body : Outcome (Response * Store))
    (handler : Exn -> Response) : Response * Store :=
  match body with
  | Ok r => r
  | Throw err => (handler err, st)
  end.

(** ** Request validation *)

Definition isEmpty (v : option string) : bool :=
  match v with
  | Some s => String.eqb s ""
  | None => true
  end.

Definition not_isEmpty (message field : string) (v : option string) : list FieldError :=
  if isEmpty v then [mkFieldError message field] else [].

Definition required_seats (v : option Z) : list FieldError :=
  match v with
  | Some _ => []
  | None => [mkFieldError "Seats are required" "seats"]
  end.

(** [isNumeric]: an integer is numeric, a missing value is not. *)
Definition isNumeric_seats (v : option Z) : list FieldError :=
  match v with
  | Some _ => []
  | None => [mkFieldError "Seats are required" "seats"]
  end.

(** A custom validator that throws adds the message of what it threw;
    calling [split] on a missing value is a [TypeError]. *)
Definition custom (check : string -> Verdict) (field : string) (v : option string)
    : list FieldError :=
  match v with
  | Some s =>
      match check s with
      | Pass => []
      | Thrown m => [mkFieldError m field]
      end
  | None => [mkFieldError "Cannot read property 'split' of undefined" field]
  end.

Definition validate_create (curr : JS.Date) (b : Body.t) : list FieldError :=
  not_isEmpty "Date is required" "leavingDate" (Body.leavingDate b)
  ++ custom (leavingDate_custom_create curr) "leavingDate" (Body.leavingDate b)
  ++ not_isEmpty "Time is required" "leavingTime" (Body.leavingTime b)
  ++ not_isEmpty "Hike is required" "hike" (Body.hike b)
  ++ required_seats (Body.seats b)
  ++ not_isEmpty "Description is required" "description" (Body.description b).

Definition validate_update (curr : JS.Date) (b : Body.t) : list FieldError :=
  not_isEmpty "Date is required" "leavingDate" (Body.leavingDate b)
  ++ custom (leavingDate_custom_update curr) "leavingDate" (Body.leavingDate b)
  ++ not_isEmpty "Time is required" "leavingTime" (Body.leavingTime b)
  ++ not_isEmpty "hike is required" "hike" (Body.hike b)
  ++ required_seats (Body.seats b)
  ++ isNumeric_seats (Body.seats b)
  ++ not_isEmpty "Description is required" "description" (Body.description b).

Definition validate_comment (text : option string) : list FieldError :=
  not_isEmpty "Text is required" "text" text.

Definition errors_isEmpty (errors : list FieldError) : bool :=
  match errors with
  | [] => true
  | _ => false
  end.

Definition bad_request (errors : list FieldError) : Response :=
  mkResponse 400 (JsonErrors errors).

(** ** Documents and the schema *)

(** The property of an object literal that a path of the schema takes. *)
Definition path (name : string) (literal : list (string * string))
    : option string :=
  match List.find (fun kv => String.eqb (fst kv) name) literal with
  | Some kv => Some (snd kv)
  | None => None
  end.

(** Validation of a required string path: unset or empty, it fails. *)
Definition required (v : option string) : Outcome string :=
  match v with
  | Some s => if String.eqb s "" then Throw StoreError else Ok s
  | None => Throw StoreError
  end.

(** ** The router *)

(** What the request carries besides its path and body: the id the
    [auth] middleware decoded into [req.user.id], the clock, and the
    [ObjectId] the driver draws for a document or sub-document made while
    serving the request. *)
Record Context : Type := mkContext {
  caller : string;
  now : Z;
  curr : JS.Date;
  fresh : string
}.

(** Names bound at the top of the router module. *)
Definition module_scope : list string :=
  ["express"; "router"; "check"; "validationResult"; "auth";
   "User"; "Profile"; "Drive"].

Section Router.
(** Whether a string casts to an [ObjectId]. *)
Variable valid_oid : string -> bool.
(** Whether the store takes a drive document when it is written. *)
Variable accepts : Drive.t -> bool.
(** Whether [findOneAndUpdate], called as the update route calls it, writes
    the document: it runs no validator but casts the fields, and a release
    of the library that checks its fourth argument refuses the [false] it
    is given. *)
Variable updates : Drive.t -> bool.
(** Properties of the global object; an identifier that is neither in
    [module_scope] nor here throws a [ReferenceError]. *)
Variable globals : list string.

Definition resolve (ident : string) : Outcome unit :=
  if existsb (String.eqb ident) (module_scope ++ globals)
  then Ok tt else Throw ReferenceError.

Definition Drive_findById (st : Store) (id : string) : Outcome (option Drive.t) :=
  if valid_oid id then Ok (drives st !! id) else Throw (CastError "ObjectId").

(** [req.user.id] comes from a token the server signed over a stored id, so
    its cast does not fail; the document may be gone. *)
Definition User_findById (st : Store) (id : string) : option User.t :=
  users st !! id.

Definition Profile_findOne (st : Store) (user : string) : option Profile.t :=
  profiles st !! user.

(** [drive.save()] of a document loaded from, or made for, key [id]. *)
Definition save (st : Store) (id : string) (drive : Drive.t) : Outcome Store :=
  if accepts drive then Ok (with_drives st (<[id := drive]> (drives st)))
  else Throw StoreError.

(** [Drive.findOneAndUpdate({ _id }, { $set }, { new: true }, false)] *)
Definition findOneAndUpdate (st : Store) (id : string) (drive : Drive.t)
    : Outcome Store :=
  if updates drive then Ok (with_drives st (<[id := drive]> (drives st)))
  else Throw StoreError.

(** [GET api/drives/:id] *)
Definition get_drive (st : Store) (id : string) : Response * Store :=
  try_catch st
    (let* drive := Drive_findById st id in
     match drive with
     | None => Ok (status_json 404 "Drive not found", st)
     | Some drive => Ok (json (JsonDrive drive), st)
     end)
    catch_404.

(** The string properties of the object literal given to [new Drive]. *)
Definition Drive_literal (u : User.t) (b : Body.t) : list (string * string) :=
  [("name", User.name u);
   ("avatar", User.avatar u);
   ("leavingDate", default "" (Body.leavingDate b));
   ("leavingTime", default "" (Body.leavingTime b));
   ("hike", default "" (Body.hike b));
   ("description", default "" (Body.description b))].

(** The first group entry; [phone] and [exp] of the literal are not paths
    of the group entries and are left out. *)
Definition seed_group (ctx : Context) (u : User.t) (p : Profile.t)
    : list Member.t :=
  [Member.mk (caller ctx) (User.name u) (User.avatar u)
     (Profile.grade p) (Profile.type p) (Profile.skills p) (now ctx)].

(** [POST api/drives]: the document takes, for each path of the schema,
    the property of that name, and [save()] validates the required paths
    before it writes. *)
Definition create_drive (ctx : Context) (st : Store) (b : Body.t)
    : Response * Store :=
  let errors := validate_create (curr ctx) b in
  if negb (errors_isEmpty errors) then (bad_request errors, st) else
  try_catch st
    (let user := User_findById st (caller ctx) in
     let profile := Profile_findOne st (caller ctx) in
     let* u := deref user in
     let* p := deref profile in
     let literal := Drive_literal u b in
     let group := seed_group ctx u p in
     let* leavingDate := required (path "leavingDate" literal) in
     let* leavingTime := required (path "leavingTime" literal) in
     let* resort := required (path "resort" literal) in
     let* description := required (path "description" literal) in
     let newDrive :=
       Drive.mk (caller ctx)
         (default "" (path "name" literal))
         (default "" (path "avatar" literal))
         leavingDate leavingTime resort
         (default 0 (Body.seats b))
         description group [] (now ctx) in
     let* _ := match drives st !! fresh ctx with
               | Some _ => Throw StoreError
               | None => Ok tt
               end in
     let* st' := save st (fresh ctx) newDrive in
     Ok (json (JsonDrive newDrive), st'))
    catch_500.

(** The string properties of [driveFields]. *)
Definition driveFields (u : User.t) (b : Body.t) : list (string * string) :=
  [("avatar", User.avatar u);
   ("leavingDate", default "" (Body.leavingDate b));
   ("leavingTime", default "" (Body.leavingTime b));
   ("hike", default "" (Body.hike b));
   ("description", default "" (Body.description b))].

(** [PUT api/drives/:id]: [$set] writes the paths of the schema that
    [driveFields] has, with [user] and [seats]. *)
Definition update_drive (ctx : Context) (st : Store) (id : string) (b : Body.t)
    : Response * Store :=
  let errors := validate_update (curr ctx) b in
  if negb (errors_isEmpty errors) then (bad_request errors, st) else
  try_catch st
    (let user := User_findById st (caller ctx) in
     let* drive := Drive_findById st id in
     match drive with
     | None => Ok (status_json 404 "Drive not found", st)
     | Some drive =>
         if negb (String.eqb (Drive.user drive) (caller ctx))
         then Ok (status_json 401 "User not Authorized", st)
         else
           let seats := default 0 (Body.seats b) in
           if seats <? 0
           then Ok (status_json 400 "Enter positive number of seats", st)
           else
             let* u := deref user in
             let fields := driveFields u b in
             let updated :=
               Drive.mk (caller ctx) (Drive.name drive)
                 (default (Drive.avatar drive) (path "avatar" fields))
                 (default (Drive.leavingDate drive) (path "leavingDate" fields))
                 (default (Drive.leavingTime drive) (path "leavingTime" fields))
                 (default (Drive.resort drive) (path "resort" fields))
                 seats
                 (default (Drive.description drive) (path "description" fields))
                 (Drive.group drive) (Drive.comments drive)
                 (Drive.date drive) in
             let* st' := findOneAndUpdate st id updated in
             Ok (json (JsonDrive updated), st')
     end)
    catch_400.

(** [DELETE api/drives/:id] *)
Definition delete_drive (ctx : Context) (st : Store) (id : string)
    : Response * Store :=
  try_catch st
    (let* drive := Drive_findById st id in
     match drive with
     | None => Ok (status_json 404 "Drive not found", st)
     | Some drive =>
         if negb (String.eqb (Drive.user drive) (caller ctx))
         then Ok (status_json 401 "User not authorized", st)
         else Ok (json (JsonMsg "Drive removed"),
                  with_drives st (delete id (drives st)))
     end)
    catch_400.

(** The entry [PUT api/drives/join/:id] adds: a profile property is
    copied only when it is truthy; [phone] and [exp] of [joinFields] are not
    paths of the group entries and are left out. *)
Definition joinFields (ctx : Context) (u : User.t) (p : Profile.t) : Member.t :=
  Member.mk (caller ctx) (User.name u) (User.avatar u)
    (if JS.truthy (Profile.grade p) then Profile.grade p else None)
    (if JS.truthy (Profile.type p) then Profile.type p else None)
    (Profile.skills p)
    (now ctx).

(** [PUT api/drives/join/:id]; [user.id], the id the document was found
    by, is read inside the callback of [filter], once per entry of the
    group. *)
Definition join_drive (ctx : Context) (st : Store) (id : string)
    : Response * Store :=
  try_catch st
    (let* drive := Drive_findById st id in
     let user := User_findById st (caller ctx) in
     let profile := Profile_findOne st (caller ctx) in
     match drive with
     | None => Ok (status_json 404 "Drive not found", st)
     | Some drive =>
         let* joined :=
           filter_try
             (fun join =>
                let* _ := deref user in
                Ok (String.eqb (Member.user join) (caller ctx)))
             (Drive.group drive) in
         if (0 <? length joined)%nat
         then Ok (status_json 400 "Drive already joined", st)
         else if Drive.seats drive <? 1
         then Ok (status_json 400 "Drive full", st)
         else
           let* u := deref user in
           match profile with
           | None => Ok (status_json 400 "You need a profile to join drives", st)
           | Some p =>
               let group := joinFields ctx u p :: Drive.group drive in
               let drive' :=
                 Drive.mk (Drive.user drive) (Drive.name drive)
                   (Drive.avatar drive) (Drive.leavingDate drive)
                   (Drive.leavingTime drive) (Drive.resort drive)
                   (JS.minus (Drive.seats drive) 1) (Drive.description drive)
                   group (Drive.comments drive) (Drive.date drive) in
               let* st' := save st id drive' in
               Ok (json (JsonGroup group), st')
           end
     end)
    catch_400.

(** [PUT api/drives/leave/:id] *)
Definition leave_drive (ctx : Context) (st : Store) (id : string)
    : Response * Store :=
  try_catch st
    (let* drive := Drive_findById st id in
     match drive with
     | None => Ok (status_json 404 "Drive not found", st)
     | Some drive =>
         let joined :=
           List.filter (fun join => String.eqb (Member.user join) (caller ctx))
             (Drive.group drive) in
         if (length joined =? 0)%nat
         then Ok (status_json 400 "Drive not joined", st)
         else
           let removeIndex :=
             JS.indexOf (caller ctx) (map Member.user (Drive.group drive)) in
           let group := JS.splice1 removeIndex (Drive.group drive) in
           let drive' :=
             Drive.mk (Drive.user drive) (Drive.name drive)
               (Drive.avatar drive) (Drive.leavingDate drive)
               (Drive.leavingTime drive) (Drive.resort drive)
               (JS.plus (Drive.seats drive) 1) (Drive.description drive)
               group (Drive.comments drive) (Drive.date drive) in
           let* st' := save st id drive' in
           Ok (json (JsonGroup group), st')
     end)
    catch_400.

Definition with_comments (drive : Drive.t) (cs : list Comment.t) : Drive.t :=
  Drive.mk (Drive.user drive) (Drive.name drive)
    (Drive.avatar drive) (Drive.leavingDate drive)
    (Drive.leavingTime drive) (Drive.resort drive)
    (Drive.seats drive) (Drive.description drive)
    (Drive.group drive) cs (Drive.date drive).

(** [POST api/drives/comment/:id]; the constructor [Post] is looked up
    before its argument is evaluated.  Where [Post] is bound, the entry
    stored is the comment sub-document it casts to. *)
Definition add_comment (ctx : Context) (st : Store) (id : string)
    (text : option string) : Response * Store :=
  let errors := validate_comment text in
  if negb (errors_isEmpty errors) then (bad_request errors, st) else
  try_catch st
    (let user := User_findById st (caller ctx) in
     let* drive := Drive_findById st id in
     let* _ := resolve "Post" in
     let* u := deref user in
     let newComment :=
       Comment.mk (fresh ctx) (caller ctx) (default "" text)
         (User.name u) (User.avatar u) (now ctx) in
     let* drive := deref drive in
     let comments := newComment :: Drive.comments drive in
     let* st' := save st id (with_comments drive comments) in
     Ok (json (JsonComments comments), st'))
    catch_404.

(** [DELETE api/drives/comment/:id/:comment_id] *)
Definition remove_comment (ctx : Context) (st : Store) (id comment_id : string)
    : Response * Store :=
  try_catch st
    (let* drive := Drive_findById st id in
     let* drive := deref drive in
     let comment :=
       List.find (fun comment => String.eqb (Comment.id comment) comment_id)
         (Drive.comments drive) in
     match comment with
     | None => Ok (status_json 404 "Comment does not exist", st)
     | Some comment =>
         if negb (String.eqb (Comment.user comment) (caller ctx))
         then Ok (status_json 401 "User not authorized", st)
         else
           let removeIndex :=
             JS.indexOf (caller ctx) (map Comment.user (Drive.comments drive)) in
           let comments := JS.splice1 removeIndex (Drive.comments drive) in
           let* st' := save st id (with_comments drive comments) in
           Ok (json (JsonComments comments), st')
     end)
    catch_404.

(** The routes that take part in the life of a drive. *)
Inductive Request : Type :=
| GetDrive (id : string)
| CreateDrive (b : Body.t)
| UpdateDrive (id : string) (b : Body.t)
| DeleteDrive (id : string)
| JoinDrive (id : string)
| LeaveDrive (id : string)
| AddComment (id : string) (text : option string)
| RemoveComment (id comment_id : string).

Definition handle (ctx : Context) (st : Store) (req : Request)
    : Response * Store :=
  match req with
  | GetDrive id => get_drive st id
  | CreateDrive b => create_drive ctx st b
  | UpdateDrive id b => update_drive ctx st id b
  | DeleteDrive id => delete_drive ctx st id
  | JoinDrive id => join_drive ctx st id
  | LeaveDrive id => leave_drive ctx st id
  | AddComment id text => add_comment ctx st id text
  | RemoveComment id comment_id => remove_comment ctx st id comment_id
  end.

End Router.

(** ** Reference behaviour of the removals *)

(** Drops the first element that satisfies [p]. *)
Fixpoint remove_first {A} (p : A -> bool) (l : list A) : list A :=
  match l with
  | [] => []
  | x :: r => if p x then r else x :: remove_first p r
  end.

Definition remove_first_member (who : string) (g : list Member.t) : list Member.t :=
  remove_first (fun join => String.eqb (Member.user join) who) g.

Definition remove_first_comment_of (who : string) (cs : list Comment.t)
    : list Comment.t :=
  remove_first (fun c => String.eqb (Comment.user c) who) cs.

(** Drops the first element whose id is [cid]: what removing the comment
    named by the path would do. *)
Definition remove_comment_by_id (cid : string) (cs : list Comment.t)
    : list Comment.t :=
  remove_first (fun c => String.eqb (Comment.id c) cid) cs.

(** ** The documents a successful request writes *)

Definition is_member (who : string) (d : Drive.t) : bool :=
  existsb (fun join => String.eqb (Member.user join) who) (Drive.group d).

Definition after_join (ctx : Context) (u : User.t) (p : Profile.t) (d : Drive.t)
    : Drive.t :=
  Drive.mk (Drive.user d) (Drive.name d) (Drive.avatar d) (Drive.leavingDate d)
    (Drive.leavingTime d) (Drive.resort d) (JS.minus (Drive.seats d) 1)
    (Drive.description d) (joinFields ctx u p :: Drive.group d)
    (Drive.comments d) (Drive.date d).

Definition after_leave (ctx : Context) (d : Drive.t) : Drive.t :=
  Drive.mk (Drive.user d) (Drive.name d) (Drive.avatar d) (Drive.leavingDate d)
    (Drive.leavingTime d) (Drive.resort d) (JS.plus (Drive.seats d) 1)
    (Drive.description d)
    (remove_first_member (caller ctx) (Drive.group d))
    (Drive.comments d) (Drive.date d).

Definition after_update (ctx : Context) (u : User.t) (b : Body.t) (d : Drive.t)
    : Drive.t :=
  Drive.mk (caller ctx) (Drive.name d) (User.avatar u)
    (default "" (Body.leavingDate b)) (default "" (Body.leavingTime b))
    (Drive.resort d) (default 0 (Body.seats b))
    (default "" (Body.description b))
    (Drive.group d) (Drive.comments d) (Drive.date d).

Definition put_drive (st : Store) (id : string) (d : Drive.t) : Store :=
  with_drives st (<[id := d]> (drives st)).

(** ** Sequences of joins and leaves on one drive *)

Inductive Membership : Type :=
| MJoin (ctx : Context)
| MLeave (ctx : Context).

Definition membership_step (valid_oid : string -> bool) (accepts : Drive.t -> bool)
    (st : Store) (id : string) (ev : Membership) : Response * Store :=
  match ev with
  | MJoin ctx => join_drive valid_oid accepts ctx st id
  | MLeave ctx => leave_drive valid_oid accepts ctx st id
  end.

(** Runs the requests in order; [None] as soon as one is not answered 200. *)
Fixpoint run_membership (valid_oid : string -> bool) (accepts : Drive.t -> bool)
    (st : Store) (id : string) (evs : list Membership) : option Store :=
  match evs with
  | [] => Some st
  | ev :: rest =>
      let r := membership_step valid_oid accepts st id ev in
      if status (fst r) =? 200
      then run_membership valid_oid accepts (snd r) id rest
      else None
  end.

Fixpoint joins (evs : list Membership) : Z :=
  match evs with
  | [] => 0
  | MJoin _ :: rest => 1 + joins rest
  | MLeave _ :: rest => joins rest
  end.

Fixpoint leaves (evs : list Membership) : Z :=
  match evs with
  | [] => 0
  | MJoin _ :: rest => leaves rest
  | MLeave _ :: rest => 1 + leaves rest
  end.

(** ** Predicates of the contract *)

Definition group_users (d : Drive.t) : list string :=
  map Member.user (Drive.group d).

(** At most one group entry per user id, in every drive of the store. *)
Definition group_unique (st : Store) : Prop :=
  map_Forall (fun _ d => NoDup (group_users d)) (drives st).

(** The drive id of a request, for the routes that have one. *)
Definition drive_id (req : Request) : option string :=
  match req with
  | GetDrive id | UpdateDrive id _ | DeleteDrive id | JoinDrive id
  | LeaveDrive id | AddComment id _ | RemoveComment id _ => Some id
  | CreateDrive _ => None
  end.

(** An id that is malformed, or that names no record. *)
Definition unresolvable (valid_oid : string -> bool) (st : Store) (id : string)
    : Prop :=
  valid_oid id = false \/ drives st !! id = None.

(** The request gets past the validation middleware of its route. *)
Definition passes_validation (ctx : Context) (req : Request) : Prop :=
  match req with
  | CreateDrive b => validate_create (curr ctx) b = []
  | UpdateDrive _ b => validate_update (curr ctx) b = []
  | AddComment _ text => validate_comment text = []
  | _ => True
  end.

Definition comment_route (req : Request) : bool :=
  match req with
  | AddComment _ _ | RemoveComment _ _ => true
  | _ => false
  end.

(** The status the [catch] block and the null check of each route give to
    an id that does not resolve. *)
Definition unresolved_status (valid_oid : string -> bool) (req : Request)
    (id : string) : Z :=
  match req with
  | GetDrive _ | AddComment _ _ | RemoveComment _ _ => 404
  | _ => if valid_oid id then 404 else 400
  end.

(** ** Calendar dates in the layout the form asks for *)

Definition digit (n : Z) : ascii := ascii_of_N (Z.to_N (48 + n)).

Definition pad2 (n : Z) : string :=
  String (digit (n / 10)) (String (digit (n mod 10)) EmptyString).

Definition pad4 (n : Z) : string :=
  String (digit (n / 1000)) (String (digit (n / 100 mod 10)) (pad2 (n mod 100))).

Definition mmddyyyy (month day year : Z) : string :=
  String.append (pad2 month)
    (String "/" (String.append (pad2 day) (String "/" (pad4 year)))).

(** The reading of the server clock is a calendar date. *)
Definition calendar (c : JS.Date) : Prop :=
  0 <= JS.getMonth c <= 11 /\ 1 <= JS.getDate c <= 31
  /\ 1000 <= JS.getFullYear c <= 9999.

Definition today (c : JS.Date) : string :=
  mmddyyyy (JS.getMonth c + 1) (JS.getDate c) (JS.getFullYear c).

Definition day_before (c : JS.Date) : string :=
  mmddyyyy (JS.getMonth c + 1) (JS.getDate c - 1) (JS.getFullYear c).

Definition is_digit (c : ascii) : bool :=
  (48 <=? JS.code c) && (JS.code c <=? 57).

Definition all_digits (n : nat) (s : string) : bool :=
  (String.length s =? n)%nat && forallb is_digit (list_ascii_of_string s).

(** Two digits, two digits and four digits around two slashes. *)
Definition layout_mmddyyyy (s : string) : bool :=
  match JS.split "/" s with
  | [mm; dd; yyyy] => all_digits 2 mm && all_digits 2 dd && all_digits 4 yyyy
  | _ => false
  end.

(** ** Sample data *)

Definition is_hex (c : ascii) : bool :=
  match JS.digit_val 16 c with
  | Some _ => true
  | None => false
  end.

(** Twenty-four hexadecimal digits. *)
Definition hex24 (s : string) : bool :=
  (String.length s =? 24)%nat && forallb is_hex (list_ascii_of_string s).

Definition accept_all (_ : Drive.t) : bool := true.

(** The globals the sources assign without declaring them. *)
Definition source_globals : list string := ["drive"; "useFindAndModify"].

Definition alice_id : string := "5e1f0a0000000000000000a1".
Definition bob_id : string := "5e1f0a0000000000000000b2".
Definition drive1_id : string := "5e1f0a0000000000000000d1".
Definition drive2_id : string := "5e1f0a0000000000000000d2".

Definition alice : User.t := User.mk "Alice" "alice@example.org" "555-0101" "a.png".
Definition bob : User.t := User.mk "Bob" "bob@example.org" "555-0102" "b.png".

Definition rider : Profile.t :=
  Profile.mk (Some "Senior") (Some "Driver") (Some "Advanced") (Some ["maps"]).

Definition alice_entry : Member.t :=
  Member.mk alice_id "Alice" "a.png"
    (Some "Senior") (Some "Driver") (Some ["maps"]) 1000.

Definition first_comment : Comment.t :=
  Comment.mk "5e1f0a0000000000000000c1" bob_id "first" "Bob" "b.png" 1100.
Definition second_comment : Comment.t :=
  Comment.mk "5e1f0a0000000000000000c2" bob_id "second" "Bob" "b.png" 1200.

Definition drive1 : Drive.t :=
  Drive.mk alice_id "Alice" "a.png" "06/20/2025" "08:00" "Rattlesnake Ledge"
    0 "Meet at the gym" [alice_entry] [first_comment; second_comment] 1000.

Definition sample_store : Store :=
  mkStore (<[alice_id := alice]> (<[bob_id := bob]> ∅))
          (<[alice_id := rider]> (<[bob_id := rider]> ∅))
          (<[drive1_id := drive1]> ∅).

Definition june15 : JS.Date := JS.mkDate 15 5 2025.

Definition bob_ctx : Context :=
  mkContext bob_id 2000 june15 "5e1f0a0000000000000000f1".
Definition alice_ctx : Context :=
  mkContext alice_id 2000 june15 drive2_id.

Definition good_body : Body.t :=
  Body.mk (Some "06/20/2025") (Some "09:00") (Some "Mount Si") (Some 3)
    (Some "Bring water").
Definition bad_body : Body.t :=
  Body.mk (Some "06/20/2025") (Some "09:00") (Some "Mount Si") (Some 3)
    (Some "").

(** The sample store before any profile was made. *)
Definition no_profile_store : Store :=
  mkStore (users sample_store) ∅ (drives sample_store).

Definition bob_in_out_in : list Membership :=
  [MJoin bob_ctx; MLeave bob_ctx; MJoin bob_ctx].

(** ** Checks run over finite ranges *)

Definition slash_free (s : string) : bool :=
  forallb (fun c => negb (Ascii.eqb c "/")) (list_ascii_of_string s).

(** [pad n] has width [w], holds no slash and parses back to [n]. *)
Definition renders (w : nat) (pad : Z -> string) (n : Z) : bool :=
  (String.length (pad n) =? w)%nat && slash_free (pad n)
  && JS.eq (JS.parseInt (pad n)) (JS.Num n).

Definition all_ascii : list ascii := map ascii_of_nat (seq 0 256).

Definition is_number (x : JS.Number) : bool :=
  match x with
  | JS.Num _ => true
  | JS.NaN => false
  end.

(** Two digits parse to a number. *)
Definition two_digits_parse (c0 c1 : ascii) : bool :=
  implb (is_digit c0 && is_digit c1)
    (is_number (JS.parseInt (String c0 (String c1 EmptyString)))).

(** ** The two listings

    [Drive.find(query).sort({ leavingDate: -1 })]: the documents that match,
    latest departure first; documents that leave at the same time come in
    the order of the store. *)

Section Listings.
(** The time, in milliseconds, of the [Date] the store holds for a
    [leavingDate]. *)
Variable toDate : string -> Z.

Definition leaving (e : string * Drive.t) : Z :=
  toDate (Drive.leavingDate (snd e)).

Fixpoint insert_desc (e : string * Drive.t) (l : list (string * Drive.t))
    : list (string * Drive.t) :=
  match l with
  | [] => [e]
  | x :: r => if leaving x <=? leaving e then e :: l else x :: insert_desc e r
  end.

Definition sort_desc (l : list (string * Drive.t)) : list (string * Drive.t) :=
  fold_right insert_desc [] l.

Definition find_sorted (query : Drive.t -> bool) (st : Store)
    : list (string * Drive.t) :=
  sort_desc (List.filter (fun e => query (snd e)) (map_to_list (drives st))).

(** [{ leavingDate: { $gte: Date.now() }, seats: { $gt: 0 } }] *)
Definition active (time : Z) (d : Drive.t) : bool :=
  (time <=? toDate (Drive.leavingDate d)) && (0 <? Drive.seats d).

(** [GET api/drives]: the status and the array of (id, document). *)
Definition get_drives (ctx : Context) (st : Store)
    : Z * list (string * Drive.t) :=
  (200, find_sorted (active (now ctx)) st).

(** [GET api/drives/dashboard/me], with the query [{ 'group.user': id }]. *)
Definition get_dashboard (ctx : Context) (st : Store)
    : Z * list (string * Drive.t) :=
  (200, find_sorted (is_member (caller ctx)) st).

(** Latest departure first. *)
Definition latest_first (l : list (string * Drive.t)) : Prop :=
  Sorted (fun a b => leaving b <= leaving a) l.

End Listings.

(** ** The drive card of the client *)

Module Auth.
(** [state.auth]: [user] is [null] until the user is loaded. *)
Record user_t : Type := mkUser {
  _id : string
}.
Record t : Type := mk {
  loading : bool;
  user : option user_t
}.
End Auth.

(** [inArray(auth, array)]: [undefined] while loading; the callback of
    [filter] reads [auth.user._id] once per entry. *)
Definition inArray (auth : Auth.t) (array : list Member.t)
    : Outcome (option bool) :=
  if negb (Auth.loading auth) then
    let* hits :=
      filter_try
        (fun object =>
           let* u := deref (Auth.user auth) in
           Ok (String.eqb (Member.user object) (Auth._id u)))
        array in
    Ok (Some (0 <? length hits)%nat)
  else Ok None.

(** What the card shows below the trip: the label of the join/leave button
    when it is shown, the two counters, and whether the edit and delete
    buttons are shown. *)
Record Card : Type := mkCard {
  membership_button : option string;
  group_count : nat;
  comment_count : nat;
  owner_buttons : bool
}.

(** The conditional parts of [DriveItem], in the order they are evaluated. *)
Definition DriveItem (auth : Auth.t) (drive : Drive.t) : Outcome Card :=
  let* shown :=
    if negb (Auth.loading auth) then
      let* u := deref (Auth.user auth) in
      Ok (negb (String.eqb (Auth._id u) (Drive.user drive)))
    else Ok false in
  let* label :=
    if shown then
      let* member := inArray auth (Drive.group drive) in
      Ok (Some (if default false member then "Leave" else "Join"))
    else Ok None in
  let* owner :=
    if negb (Auth.loading auth) then
      let* u := deref (Auth.user auth) in
      Ok (String.eqb (Drive.user drive) (Auth._id u))
    else Ok false in
  Ok (mkCard label (length (Drive.group drive)) (length (Drive.comments drive))
        owner).

(** ** Registration ([POST api/users]) *)

Module Account.
(** A user document as the registration stores it. *)
Record t : Type := mk {
  name : string;
  email : string;
  phone : string;
  avatar : string;
  password : string
}.
End Account.

Module Registration.
(** [req.body] of the registration; a property may be missing. *)
Record t : Type := mk {
  name : option string;
  email : option string;
  phone : option string;
  password : option string
}.
End Registration.

Inductive RegPayload : Type :=
| RegToken (token : string)
| RegErrors (errors : list FieldError)
| RegMessages (msgs : list string)
| RegSend (text : string).

Record RegResponse : Type := mkRegResponse {
  reg_status : Z;
  reg_payload : RegPayload
}.

(** The id drawn for the new document, the salt [bcrypt.genSalt] returns
    and the [jwtSecret] of the configuration, if it is set. *)
Record RegContext : Type := mkRegContext {
  reg_fresh : string;
  salt : string;
  jwtSecret : option string
}.

(** [User.findOne({ email })] *)
Definition find_by_email (email : string) (accounts : gmap string Account.t)
    : option (string * Account.t) :=
  List.find (fun e => String.eqb (Account.email (snd e)) email)
    (map_to_list accounts).

(** No two stored accounts share an email. *)
Definition unique_emails (accounts : gmap string Account.t) : Prop :=
  forall i j a b,
    accounts !! i = Some a -> accounts !! j = Some b ->
    Account.email a = Account.email b -> i = j.

Section Register.
(** The validators, [gravatar.url], [bcrypt.hash], [jwt.sign] and the
    checks of the store on a new user. *)
Variable isEmail : string -> bool.
Variable isMobilePhone : string -> bool.
Variable gravatar_url : string -> string.
Variable bcrypt_hash : string -> string -> string.
Variable jwt_sign : string -> string -> string.
Variable accepts_user : Account.t -> bool.

Definition holds (ok : bool) (message field : string) : list FieldError :=
  if ok then [] else [mkFieldError message field].

(** A missing property is validated as the empty string. *)
Definition validate_register (b : Registration.t) : list FieldError :=
  not_isEmpty "Name is required" "name" (Registration.name b)
  ++ holds (isEmail (default "" (Registration.email b)))
       "Please include a valid email" "email"
  ++ not_isEmpty "Please include a valid phone number" "phone"
       (Registration.phone b)
  ++ holds (isMobilePhone (default "" (Registration.phone b)))
       "Please include a valid phone number" "phone"
  ++ holds (6 <=? String.length (default "" (Registration.password b)))%nat
       "Please enter a password with more than 6 characters" "password".

(** The account [new User({...})] holds once its password is hashed. *)
Definition new_account (rc : RegContext) (b : Registration.t) : Account.t :=
  let email := default "" (Registration.email b) in
  Account.mk (default "" (Registration.name b)) email
    (default "" (Registration.phone b)) (gravatar_url email)
    (bcrypt_hash (default "" (Registration.password b)) (salt rc)).

(** The handler: the account is saved before the token is signed, and
    [config.get] throws when the secret is not set. *)
Definition register (rc : RegContext) (accounts : gmap string Account.t)
    (b : Registration.t) : RegResponse * gmap string Account.t :=
  let errors := validate_register b in
  if negb (errors_isEmpty errors)
  then (mkRegResponse 400 (RegErrors errors), accounts) else
  let email := default "" (Registration.email b) in
  match find_by_email email accounts with
  | Some _ => (mkRegResponse 400 (RegMessages ["User already exists"]), accounts)
  | None =>
      let user := new_account rc b in
      match accounts !! reg_fresh rc with
      | Some _ => (mkRegResponse 500 (RegSend "Server error"), accounts)
      | None =>
          if accepts_user user then
            let accounts' := <[reg_fresh rc := user]> accounts in
            match jwtSecret rc with
            | Some secret =>
                (mkRegResponse 200 (RegToken (jwt_sign (reg_fresh rc) secret)),
                 accounts')
            | None => (mkRegResponse 500 (RegSend "Server error"), accounts')
            end
          else (mkRegResponse 500 (RegSend "Server error"), accounts)
      end
  end.

End Register.

(** ** Further predicates on strings, documents and stores *)

Fixpoint count_char (c : ascii) (s : string) : nat :=
  match s with
  | EmptyString => O
  | String x r => if Ascii.eqb x c then S (count_char c r) else count_char c r
  end.

(** No drive of the store has a negative seat count. *)
Definition seats_nonneg (st : Store) : Prop :=
  map_Forall (fun _ d => 0 <= Drive.seats d) (drives st).

(** The one key of the drives collection a request may write. *)
Definition touched (ctx : Context) (req : Request) : string :=
  match drive_id req with
  | Some id => id
  | None => fresh ctx
  end.

(** Everything of a drive apart from its seats, group and comments. *)
Definition same_trip (d d' : Drive.t) : Prop :=
  Drive.user d' = Drive.user d /\ Drive.name d' = Drive.name d
  /\ Drive.avatar d' = Drive.avatar d
  /\ Drive.leavingDate d' = Drive.leavingDate d
  /\ Drive.leavingTime d' = Drive.leavingTime d
  /\ Drive.resort d' = Drive.resort d
  /\ Drive.description d' = Drive.description d
  /\ Drive.date d' = Drive.date d.

(** The statuses each route can answer with. *)
Definition route_statuses (req : Request) : list Z :=
  match req with
  | GetDrive _ => [200; 404]
  | CreateDrive _ => [200; 400; 500]
  | UpdateDrive _ _ => [200; 400; 401; 404; 500]
  | DeleteDrive _ => [200; 400; 401; 404]
  | JoinDrive _ => [200; 400; 404; 500]
  | LeaveDrive _ => [200; 400; 404; 500]
  | AddComment _ _ => [200; 400; 404; 500]
  | RemoveComment _ _ => [200; 401; 404; 500]
  end.

(** What a request that writes an existing drive [d] stores in its place. *)
Definition written (ctx : Context) (req : Request) (d d' : Drive.t) : Prop :=
  match req with
  | UpdateDrive _ b =>
      (exists u, d' = after_update ctx u b d)
      /\ Drive.user d = caller ctx /\ 0 <= default 0 (Body.seats b)
  | JoinDrive _ =>
      (exists u p, d' = after_join ctx u p d)
      /\ is_member (caller ctx) d = false /\ 1 <= Drive.seats d
  | LeaveDrive _ =>
      d' = after_leave ctx d /\ is_member (caller ctx) d = true
  | AddComment _ _ =>
      exists c, d' = with_comments d (c :: Drive.comments d)
  | RemoveComment _ _ =>
      d' = with_comments d (remove_first_comment_of (caller ctx) (Drive.comments d))
  | _ => False
  end.

(** ** More sample data *)

Definition drive3_id : string := "5e1f0a0000000000000000d3".

(** A drive of Alice with one seat left. *)
Definition drive3 : Drive.t :=
  Drive.mk alice_id "Alice" "a.png" "07/04/2025" "07:30" "Mailbox Peak"
    1 "Early start" [alice_entry] [] 1500.

Definition open_store : Store := put_drive sample_store drive3_id drive3.

(** A drive whose seat count lies past [2^53]. *)
Definition crowded_drive : Drive.t :=
  Drive.mk alice_id "Alice" "a.png" "07/04/2025" "07:30" "Mailbox Peak"
    (JS.safe_integer + 2) "Charter" [alice_entry] [] 1500.

Definition crowded_store : Store := put_drive sample_store drive3_id crowded_drive.

Definition bob_in_out : list Membership := [MJoin bob_ctx; MLeave bob_ctx].

(** The open store once Bob has joined [drive3]. *)
Definition joined_store : Store :=
  snd (join_drive hex24 accept_all bob_ctx open_store drive3_id).

Definition negative_body : Body.t :=
  Body.mk (Some "06/20/2025") (Some "09:00") (Some "Mount Si") (Some (-2))
    (Some "Bring water").

(** A stand-in for the cast to [Date]: year, month and day read as one
    number, which orders dates as the calendar does. *)
Definition sample_toDate (s : string) : Z :=
  match map JS.parseInt (JS.split "/" s) with
  | [JS.Num mo; JS.Num dy; JS.Num yr] => yr * 10000 + mo * 100 + dy
  | _ => 0
  end.

Definition bob_auth : Auth.t := Auth.mk false (Some (Auth.mkUser bob_id)).

(** Stand-ins for the libraries of the registration. *)
Definition sample_isEmail (s : string) : bool :=
  existsb (Ascii.eqb "@") (list_ascii_of_string s).
Definition sample_isMobilePhone (s : string) : bool :=
  negb (String.eqb s "") && forallb is_digit (list_ascii_of_string s).
Definition sample_gravatar (email : string) : string :=
  String.append "//www.gravatar.com/avatar/" email.
Definition sample_hash (password salt : string) : string :=
  String.append "$2a$10$" (String.append salt password).
Definition sample_sign (id secret : string) : string :=
  String.append id (String.append "." secret).

Definition alice_account : Account.t :=
  Account.mk "Alice" "alice@example.org" "5550101" "a.png" "$2a$10$saltsecret".

Definition sample_accounts : gmap string Account.t :=
  <[alice_id := alice_account]> ∅.

Definition bob_registration : Registration.t :=
  Registration.mk (Some "Bob") (Some "bob@example.org") (Some "5550102")
    (Some "hunter").
Definition alice_registration : Registration.t :=
  Registration.mk (Some "Alice B") (Some "alice@example.org") (Some "5550103")
    (Some "trustno1").

Definition reg_ctx : RegContext := mkRegContext bob_id "NaCl" (Some "s3cret").
Definition reg_ctx_no_secret : RegContext := mkRegContext bob_id "NaCl" None.

(** Unfolds a route down to its tests on the request and the store. *)
Ltac route :=
  unfold get_drive, create_drive, update_drive, delete_drive, join_drive,
    leave_drive, add_comment, remove_comment, try_catch, Drive_findById,
    User_findById, Profile_findOne, save, findOneAndUpdate, resolve,
    catch_400, catch_404, catch_500.

(** Closes a goal [In x l] on a literal list. *)
Ltac pick := solve [simpl; repeat (try (left; reflexivity); right)].

(** * Properties *)

(** ** Numbers *)

Lemma round_exact z :
  - JS.safe_integer <= z <= JS.safe_integer -> JS.round z = z.
Proof.
  intros H. unfold JS.round.
  replace (Z.abs z <=? JS.safe_integer) with true; [reflexivity|].
  symmetry. apply Z.leb_le. lia.
Qed.

Lemma round_nonneg z : 0 <= z -> 0 <= JS.round z.
Proof.
  intros H. unfold JS.round.
  destruct (Z.abs z <=? JS.safe_integer); [exact H|]. cbv zeta.
  rewrite (Z.abs_eq z H).
  set (ulp := 2 ^ (Z.log2 z - 52)).
  assert (Hu : 0 <= ulp) by (apply Z.pow_nonneg; lia).
  assert (Hq : 0 <= z / ulp) by (apply Z_div_nonneg_nonneg; assumption).
  apply Z.mul_nonneg_nonneg; [apply Z.sgn_nonneg, H|].
  apply Z.mul_nonneg_nonneg; [|exact Hu].
  destruct (2 * (z mod ulp) <? ulp); [exact Hq|].
  destruct (ulp <? 2 * (z mod ulp)); [lia|].
  destruct (Z.even (z / ulp)); lia.
Qed.

Lemma minus_exact a b :
  - JS.safe_integer <= a - b <= JS.safe_integer -> JS.minus a b = a - b.
Proof. apply round_exact. Qed.

Lemma plus_exact a b :
  - JS.safe_integer <= a + b <= JS.safe_integer -> JS.plus a b = a + b.
Proof. apply round_exact. Qed.

(** ** Arrays *)

Lemma remove_first_length {A} (p : A -> bool) (l : list A) :
  existsb p l = true -> S (length (remove_first p l)) = length l.
Proof.
  induction l as [|x r IH]; simpl; [discriminate|].
  destruct (p x); simpl; [reflexivity|].
  intros H. rewrite IH by exact H. reflexivity.
Qed.

Lemma remove_first_In {A} (p : A -> bool) (l : list A) (x : A) :
  In x (remove_first p l) -> In x l.
Proof.
  induction l as [|y r IH]; simpl; [tauto|].
  destruct (p y); simpl; intuition.
Qed.

Lemma remove_first_map_In {A B} (f : A -> B) (p : A -> bool) (l : list A) (b : B) :
  In b (map f (remove_first p l)) -> In b (map f l).
Proof.
  rewrite !in_map_iff. intros (a & Ha & Hin).
  exists a. split; [exact Ha|]. eapply remove_first_In, Hin.
Qed.

Lemma remove_first_NoDup {A B} (f : A -> B) (p : A -> bool) (l : list A) :
  NoDup (map f l) -> NoDup (map f (remove_first p l)).
Proof.
  induction l as [|x r IH]; simpl; [auto|].
  intros Hnd. apply NoDup_cons in Hnd as [Hx Hr].
  destruct (p x); [exact Hr|].
  simpl. apply NoDup_cons. split; [|apply IH, Hr].
  intros Hin. apply Hx. apply list_elem_of_In.
  apply list_elem_of_In in Hin. eapply remove_first_map_In, Hin.
Qed.

Lemma existsb_eqb_In {A} (f : A -> string) (x : string) (l : list A) :
  existsb (fun a => String.eqb (f a) x) l = true <-> In x (map f l).
Proof.
  induction l as [|a r IH]; simpl.
  - split; [discriminate|tauto].
  - rewrite orb_true_iff, IH, String.eqb_eq. tauto.
Qed.

Lemma filter_length_existsb {A} (p : A -> bool) (l : list A) :
  (0 <? length (List.filter p l))%nat = existsb p l.
Proof.
  induction l as [|a r IH]; simpl; [reflexivity|].
  destruct (p a); simpl; [reflexivity|exact IH].
Qed.

(** [indexOf] finds the position that [remove_first] drops. *)
Lemma indexOf_from_found {A} (f : A -> string) (x : string) (l : list A) :
  forall i, existsb (fun a => String.eqb (f a) x) l = true ->
  exists n : nat,
    JS.indexOf_from i x (map f l) = i + Z.of_nat n
    /\ (n < length l)%nat
    /\ JS.remove_at n l = remove_first (fun a => String.eqb (f a) x) l.
Proof.
  induction l as [|a r IH]; simpl; intros i H; [discriminate|].
  destruct (String.eqb (f a) x) eqn:E; simpl in H.
  - exists 0%nat. repeat split; [lia|lia].
  - destruct (IH (i + 1) H) as (n & Hn & Hlt & Hrm).
    exists (S n). repeat split; [lia|lia|].
    simpl. rewrite Hrm. reflexivity.
Qed.

Lemma splice_indexOf {A} (f : A -> string) (x : string) (l : list A) :
  existsb (fun a => String.eqb (f a) x) l = true ->
  JS.splice1 (JS.indexOf x (map f l)) l
  = remove_first (fun a => String.eqb (f a) x) l.
Proof.
  intros H. destruct (indexOf_from_found f x l 0 H) as (n & Hn & Hlt & Hrm).
  unfold JS.splice1, JS.indexOf. rewrite Hn.
  replace (0 + Z.of_nat n <? 0) with false by (symmetry; apply Z.ltb_ge; lia).
  rewrite Z.min_l by lia.
  replace (Z.to_nat (0 + Z.of_nat n)) with n by lia.
  exact Hrm.
Qed.

(** The callback of [filter] in the join route throws only when it is
    called, that is, on a non-empty group, with no user document. *)
Lemma filter_try_found {U} (u : U) (p : Member.t -> bool) (l : list Member.t) :
  filter_try (fun join => let* _ := deref (Some u) in Ok (p join)) l
  = Ok (List.filter p l).
Proof.
  induction l as [|a r IH]; [reflexivity|].
  cbn [filter_try]. rewrite IH. reflexivity.
Qed.

Lemma filter_try_missing {U} (p : Member.t -> bool) (l : list Member.t) :
  filter_try (fun join => let* _ := deref (@None U) in Ok (p join)) l
  = match l with [] => Ok [] | _ => Throw TypeError end.
Proof. destruct l; reflexivity. Qed.

(** ** What each route does to the store *)

Section Routes.
Variable valid_oid : string -> bool.
Variable accepts : Drive.t -> bool.
Variable updates : Drive.t -> bool.
Variable globals : list string.
Implicit Types (ctx : Context) (st : Store) (id : string) (d : Drive.t).

Lemma get_drive_store st id : snd (get_drive valid_oid st id) = st.
Proof.
  route. destruct (valid_oid id); simpl; [|reflexivity].
  destruct (drives st !! id); reflexivity.
Qed.

(** Join either leaves the store alone and is not answered 200, or it
    writes [after_join] for a caller who was not in the group. *)
Lemma join_drive_inv ctx st id :
  (snd (join_drive valid_oid accepts ctx st id) = st
   /\ status (fst (join_drive valid_oid accepts ctx st id)) <> 200)
  \/ exists d u p,
       valid_oid id = true /\ drives st !! id = Some d
       /\ users st !! caller ctx = Some u
       /\ profiles st !! caller ctx = Some p
       /\ is_member (caller ctx) d = false
       /\ 1 <= Drive.seats d
       /\ join_drive valid_oid accepts ctx st id
          = (json (JsonGroup (joinFields ctx u p :: Drive.group d)),
             put_drive st id (after_join ctx u p d)).
Proof.
  route. destruct (valid_oid id) eqn:Hv; simpl; [|left; split; [reflexivity|discriminate]].
  destruct (drives st !! id) as [d|] eqn:Hd; simpl; [|left; split; [reflexivity|discriminate]].
  destruct (users st !! caller ctx) as [u|] eqn:Hu.
  2:{ left. rewrite filter_try_missing.
      destruct (Drive.group d); simpl; [|split; [reflexivity|discriminate]].
      destruct (Drive.seats d <? 1); simpl; split; (reflexivity || discriminate). }
  rewrite filter_try_found. simpl. rewrite filter_length_existsb.
  fold (is_member (caller ctx) d).
  destruct (is_member (caller ctx) d) eqn:Hm; simpl; [left; split; [reflexivity|discriminate]|].
  destruct (Drive.seats d <? 1) eqn:Hs; simpl; [left; split; [reflexivity|discriminate]|].
  destruct (profiles st !! caller ctx) as [p|] eqn:Hp; simpl; [|left; split; [reflexivity|discriminate]].
  destruct (accepts _) eqn:Ha; simpl; [|left; split; [reflexivity|discriminate]].
  right. exists d, u, p. apply Z.ltb_ge in Hs. repeat split; auto.
Qed.

Lemma leave_drive_inv ctx st id :
  (snd (leave_drive valid_oid accepts ctx st id) = st
   /\ status (fst (leave_drive valid_oid accepts ctx st id)) <> 200)
  \/ exists d,
       valid_oid id = true /\ drives st !! id = Some d
       /\ is_member (caller ctx) d = true
       /\ leave_drive valid_oid accepts ctx st id
          = (json (JsonGroup (remove_first_member (caller ctx) (Drive.group d))),
             put_drive st id (after_leave ctx d)).
Proof.
  route. destruct (valid_oid id) eqn:Hv; simpl; [|left; split; [reflexivity|discriminate]].
  destruct (drives st !! id) as [d|] eqn:Hd; simpl; [|left; split; [reflexivity|discriminate]].
  pose proof (filter_length_existsb
    (fun join => String.eqb (Member.user join) (caller ctx)) (Drive.group d)) as Hf.
  fold (is_member (caller ctx) d) in Hf.
  destruct (is_member (caller ctx) d) eqn:Hm.
  - apply Nat.ltb_lt in Hf.
    replace (_ =? 0)%nat with false by (symmetry; apply Nat.eqb_neq; lia).
    unfold is_member in Hm. rewrite (splice_indexOf Member.user _ _ Hm).
    fold (remove_first_member (caller ctx) (Drive.group d)).
    fold (after_leave ctx d).
    destruct (accepts _) eqn:Ha; simpl; [|left; split; [reflexivity|discriminate]].
    right. exists d. repeat split; auto.
  - apply Nat.ltb_ge in Hf.
    replace (_ =? 0)%nat with true by (symmetry; apply Nat.eqb_eq; lia).
    left. split; [reflexivity|discriminate].
Qed.

(** A body that passes validation has all five properties. *)
Lemma validate_update_present c b :
  validate_update c b = [] ->
  exists ld tm hk se ds,
    b = Body.mk (Some ld) (Some tm) (Some hk) (Some se) (Some ds).
Proof.
  unfold validate_update. intros H.
  repeat (apply app_eq_nil in H as [? H]).
  destruct b as [[ld|] [tm|] [hk|] [se|] [ds|]]; simpl in *; try discriminate.
  eauto 10.
Qed.

Lemma validate_create_present c b :
  validate_create c b = [] ->
  exists ld tm hk se ds,
    b = Body.mk (Some ld) (Some tm) (Some hk) (Some se) (Some ds).
Proof.
  unfold validate_create. intros H.
  repeat (apply app_eq_nil in H as [? H]).
  destruct b as [[ld|] [tm|] [hk|] [se|] [ds|]]; simpl in *; try discriminate.
  eauto 10.
Qed.

(** The literal of the create route names the destination [hike], which
    is no path of the schema, so [resort] stays unset and the validation of
    that required path fails: a body past the request validation is
    answered 500. *)
Lemma create_drive_valid ctx st b u p :
  validate_create (curr ctx) b = [] ->
  users st !! caller ctx = Some u ->
  profiles st !! caller ctx = Some p ->
  create_drive accepts ctx st b = (server_error, st).
Proof.
  intros Hval Hu Hp. route. rewrite Hval. cbn [errors_isEmpty negb].
  rewrite Hu, Hp. cbn [deref bind].
  destruct (validate_create_present _ _ Hval) as (ld & tm & hk & se & ds & ->).
  unfold Drive_literal. cbn [Body.leavingDate Body.leavingTime Body.hike
    Body.description default].
  change (path "leavingDate" _) with (Some ld).
  change (path "leavingTime" _) with (Some tm).
  change (path "resort" _) with (@None string).
  unfold required.
  destruct (String.eqb ld ""); cbn [bind]; [reflexivity|].
  destruct (String.eqb tm ""); reflexivity.
Qed.

Lemma create_drive_eq ctx st b :
  create_drive accepts ctx st b
  = (if errors_isEmpty (validate_create (curr ctx) b)
     then server_error
     else bad_request (validate_create (curr ctx) b),
     st).
Proof.
  destruct (validate_create (curr ctx) b) as [|e errs] eqn:Hval.
  - cbn [errors_isEmpty].
    destruct (users st !! caller ctx) as [u|] eqn:Hu.
    + destruct (profiles st !! caller ctx) as [p|] eqn:Hp.
      * exact (create_drive_valid ctx st b u p Hval Hu Hp).
      * route. rewrite Hval, Hu, Hp. reflexivity.
    + route. rewrite Hval, Hu. reflexivity.
  - route. rewrite Hval. reflexivity.
Qed.

Lemma create_drive_inv ctx st b :
  snd (create_drive accepts ctx st b) = st
  /\ status (fst (create_drive accepts ctx st b)) <> 200.
Proof.
  rewrite create_drive_eq.
  destruct (errors_isEmpty _); split; (reflexivity || discriminate).
Qed.

Lemma update_drive_inv ctx st id b :
  (snd (update_drive valid_oid updates ctx st id b) = st
   /\ status (fst (update_drive valid_oid updates ctx st id b)) <> 200)
  \/ exists d u,
       validate_update (curr ctx) b = []
       /\ valid_oid id = true /\ drives st !! id = Some d
       /\ Drive.user d = caller ctx
       /\ users st !! caller ctx = Some u
       /\ update_drive valid_oid updates ctx st id b
          = (json (JsonDrive (after_update ctx u b d)),
             put_drive st id (after_update ctx u b d)).
Proof.
  route. destruct (validate_update (curr ctx) b) eqn:Hval; simpl;
    [|left; split; [reflexivity|discriminate]].
  destruct (valid_oid id) eqn:Hv; simpl; [|left; split; [reflexivity|discriminate]].
  destruct (drives st !! id) as [d|] eqn:Hd; simpl;
    [|left; split; [reflexivity|discriminate]].
  destruct (String.eqb_spec (Drive.user d) (caller ctx)) as [Ho|Ho]; simpl;
    [|left; split; [reflexivity|discriminate]].
  destruct (default 0 (Body.seats b) <? 0); simpl;
    [left; split; [reflexivity|discriminate]|].
  destruct (users st !! caller ctx) as [u|] eqn:Hu; simpl;
    [|left; split; [reflexivity|discriminate]].
  fold (after_update ctx u b d).
  destruct (updates _) eqn:Ha; simpl; [|left; split; [reflexivity|discriminate]].
  right. exists d, u. repeat split; auto.
Qed.

Lemma delete_drive_inv ctx st id :
  (snd (delete_drive valid_oid ctx st id) = st
   /\ status (fst (delete_drive valid_oid ctx st id)) <> 200)
  \/ exists d,
       valid_oid id = true /\ drives st !! id = Some d
       /\ Drive.user d = caller ctx
       /\ delete_drive valid_oid ctx st id
          = (json (JsonMsg "Drive removed"),
             with_drives st (delete id (drives st))).
Proof.
  route. destruct (valid_oid id) eqn:Hv; simpl; [|left; split; [reflexivity|discriminate]].
  destruct (drives st !! id) as [d|] eqn:Hd; simpl;
    [|left; split; [reflexivity|discriminate]].
  destruct (String.eqb_spec (Drive.user d) (caller ctx)) as [Ho|Ho]; simpl;
    [|left; split; [reflexivity|discriminate]].
  right. exists d. repeat split; auto.
Qed.

Lemma add_comment_inv ctx st id text :
  (snd (add_comment valid_oid accepts globals ctx st id text) = st
   /\ status (fst (add_comment valid_oid accepts globals ctx st id text)) <> 200)
  \/ exists d u,
       existsb (String.eqb "Post") (module_scope ++ globals) = true
       /\ drives st !! id = Some d
       /\ snd (add_comment valid_oid accepts globals ctx st id text)
          = put_drive st id
              (with_comments d
                 (Comment.mk (fresh ctx) (caller ctx) (default "" text)
                    (User.name u) (User.avatar u) (now ctx)
                  :: Drive.comments d)).
Proof.
  route.
  remember (existsb (String.eqb "Post") (module_scope ++ globals)) as bound eqn:HP.
  destruct (validate_comment text) eqn:Hval; simpl;
    [|left; split; [reflexivity|discriminate]].
  destruct (valid_oid id) eqn:Hv; simpl; [|left; split; [reflexivity|discriminate]].
  destruct bound; simpl; [|left; split; [reflexivity|discriminate]].
  destruct (users st !! caller ctx) as [u|] eqn:Hu; simpl;
    [|left; split; [reflexivity|discriminate]].
  destruct (drives st !! id) as [d|] eqn:Hd; simpl;
    [|left; split; [reflexivity|discriminate]].
  destruct (accepts _) eqn:Ha; simpl; [|left; split; [reflexivity|discriminate]].
  right. exists d, u. repeat split; auto.
Qed.

Lemma find_comment_author (cs : list Comment.t) (cid who : string) (c : Comment.t) :
  List.find (fun c => String.eqb (Comment.id c) cid) cs = Some c ->
  Comment.user c = who ->
  existsb (fun a => String.eqb (Comment.user a) who) cs = true.
Proof.
  intros Hf Hu. apply find_some in Hf as [Hin _].
  apply existsb_exists. exists c. split; [exact Hin|].
  apply String.eqb_eq, Hu.
Qed.

Lemma remove_comment_inv ctx st id cid :
  (snd (remove_comment valid_oid accepts ctx st id cid) = st
   /\ status (fst (remove_comment valid_oid accepts ctx st id cid)) <> 200)
  \/ exists d c,
       valid_oid id = true /\ drives st !! id = Some d
       /\ List.find (fun c => String.eqb (Comment.id c) cid) (Drive.comments d)
          = Some c
       /\ Comment.user c = caller ctx
       /\ remove_comment valid_oid accepts ctx st id cid
          = (json (JsonComments
                     (remove_first_comment_of (caller ctx) (Drive.comments d))),
             put_drive st id
               (with_comments d
                  (remove_first_comment_of (caller ctx) (Drive.comments d)))).
Proof.
  route. destruct (valid_oid id) eqn:Hv; simpl; [|left; split; [reflexivity|discriminate]].
  destruct (drives st !! id) as [d|] eqn:Hd; simpl;
    [|left; split; [reflexivity|discriminate]].
  destruct (List.find _ (Drive.comments d)) as [c|] eqn:Hc; simpl;
    [|left; split; [reflexivity|discriminate]].
  destruct (String.eqb_spec (Comment.user c) (caller ctx)) as [Ho|Ho]; simpl;
    [|left; split; [reflexivity|discriminate]].
  rewrite (splice_indexOf Comment.user _ _ (find_comment_author _ _ _ _ Hc Ho)).
  fold (remove_first_comment_of (caller ctx) (Drive.comments d)).
  destruct (accepts _) eqn:Ha; simpl; [|left; split; [reflexivity|discriminate]].
  right. exists d, c. repeat split; auto.
Qed.

(** ** Comments *)

(** C1, where the code departs from it: the router module binds no [Post];
    unless the global object does, the add-comment route throws before it
    touches the drive, so every request with a non-empty text and a
    well-formed id, whatever the caller and the drive, is answered 500
    "Server Error" and the comment list stays as it was. *)
Theorem add_comment_unbound_Post ctx st id text :
  existsb (String.eqb "Post") (module_scope ++ globals) = false ->
  validate_comment text = [] ->
  valid_oid id = true ->
  add_comment valid_oid accepts globals ctx st id text = (server_error, st).
Proof.
  intros HP Hval Hv. route. rewrite Hval, Hv, HP. reflexivity.
Qed.

(** A caller other than the author of the targeted comment is refused. *)
Lemma remove_comment_not_author ctx st id cid d c :
  valid_oid id = true ->
  drives st !! id = Some d ->
  List.find (fun c => String.eqb (Comment.id c) cid) (Drive.comments d) = Some c ->
  Comment.user c <> caller ctx ->
  remove_comment valid_oid accepts ctx st id cid
  = (status_json 401 "User not authorized", st).
Proof.
  intros Hv Hd Hc Ho. route. rewrite Hv. simpl. rewrite Hd. simpl. rewrite Hc.
  destruct (String.eqb_spec (Comment.user c) (caller ctx)); [contradiction|].
  reflexivity.
Qed.

(** C3, where the code departs from it: when the caller wrote the comment
    the path names, the route removes the first comment of the list that the
    caller wrote, whichever comment was named; the list loses exactly one
    entry. *)
Theorem remove_comment_author ctx st id cid d c :
  valid_oid id = true ->
  drives st !! id = Some d ->
  List.find (fun c => String.eqb (Comment.id c) cid) (Drive.comments d) = Some c ->
  Comment.user c = caller ctx ->
  accepts (with_comments d
             (remove_first_comment_of (caller ctx) (Drive.comments d))) = true ->
  remove_comment valid_oid accepts ctx st id cid
  = (json (JsonComments
             (remove_first_comment_of (caller ctx) (Drive.comments d))),
     put_drive st id
       (with_comments d
          (remove_first_comment_of (caller ctx) (Drive.comments d))))
  /\ S (length (remove_first_comment_of (caller ctx) (Drive.comments d)))
     = length (Drive.comments d).
Proof.
  intros Hv Hd Hc Ho Ha. split.
  - destruct (remove_comment_inv ctx st id cid)
      as [[_ Hs]|(d' & c' & _ & Hd' & Hc' & _ & Heq)].
    + exfalso. apply Hs. revert Hs. route. rewrite Hv. simpl. rewrite Hd. simpl.
      rewrite Hc. rewrite (proj2 (String.eqb_eq _ _) Ho). simpl.
      rewrite (splice_indexOf Comment.user _ _ (find_comment_author _ _ _ _ Hc Ho)).
      fold (remove_first_comment_of (caller ctx) (Drive.comments d)).
      rewrite Ha. reflexivity.
    + rewrite Hd in Hd'. injection Hd' as <-. exact Heq.
  - apply remove_first_length, (find_comment_author _ _ _ _ Hc Ho).
Qed.

(** ** Ids that do not resolve *)

(** C4, as amended: get answers 404 to an id that is malformed or names no
    record; update (past validation), delete, join and leave answer 404 when
    the id names no record and 400 "Drive not found" when it is malformed;
    add-comment (past validation) and remove-comment answer 404 to a
    malformed id.  The store is left as it was. *)
Theorem unresolvable_id_status ctx st req id :
  drive_id req = Some id ->
  unresolvable valid_oid st id ->
  passes_validation ctx req ->
  (comment_route req = true -> valid_oid id = false) ->
  handle valid_oid accepts updates globals ctx st req
  = (status_json (unresolved_status valid_oid req id) "Drive not found", st).
Proof.
  intros Hid Hun Hval Hc.
  destruct req; simpl in Hid; try discriminate; injection Hid as ->;
    simpl in *; route.
  - destruct (valid_oid id) eqn:Hv; simpl; [|reflexivity].
    destruct Hun as [?|Hn]; [congruence|rewrite Hn; reflexivity].
  - rewrite Hval. simpl.
    destruct (valid_oid id) eqn:Hv; simpl; [|reflexivity].
    destruct Hun as [?|Hn]; [congruence|rewrite Hn; reflexivity].
  - destruct (valid_oid id) eqn:Hv; simpl; [|reflexivity].
    destruct Hun as [?|Hn]; [congruence|rewrite Hn; reflexivity].
  - destruct (valid_oid id) eqn:Hv; simpl; [|reflexivity].
    destruct Hun as [?|Hn]; [congruence|rewrite Hn; reflexivity].
  - destruct (valid_oid id) eqn:Hv; simpl; [|reflexivity].
    destruct Hun as [?|Hn]; [congruence|rewrite Hn; reflexivity].
  - rewrite Hval, (Hc eq_refl). reflexivity.
  - rewrite (Hc eq_refl). reflexivity.
Qed.

(** ** Refused mutations *)

(** C5, as amended: for a drive that resolves, a join on zero seats by a
    caller who is not in the group and whose user document exists is
    answered 400 "Drive full"; an update whose body passes validation and a
    delete, by a caller who is not the owner, are answered 401; and in all
    three cases, as for an update the validation refuses, the store is left
    as it was. *)
Theorem refused_mutations_keep_store ctx st id d :
  valid_oid id = true ->
  drives st !! id = Some d ->
  (Drive.seats d = 0 -> is_member (caller ctx) d = false ->
   is_Some (users st !! caller ctx) ->
   join_drive valid_oid accepts ctx st id = (status_json 400 "Drive full", st))
  /\ (Drive.user d <> caller ctx ->
      forall b,
        (validate_update (curr ctx) b = [] ->
         update_drive valid_oid updates ctx st id b
         = (status_json 401 "User not Authorized", st))
        /\ snd (update_drive valid_oid updates ctx st id b) = st)
  /\ (Drive.user d <> caller ctx ->
      delete_drive valid_oid ctx st id
      = (status_json 401 "User not authorized", st)).
Proof.
  intros Hv Hd. split; [|split].
  - intros Hs Hm [u Hu]. route. rewrite Hv. simpl. rewrite Hd, Hu.
    rewrite filter_try_found. simpl. rewrite filter_length_existsb.
    fold (is_member (caller ctx) d). rewrite Hm, Hs. reflexivity.
  - intros Ho b.
    assert (Hne : String.eqb (Drive.user d) (caller ctx) = false)
      by (apply String.eqb_neq, Ho).
    split.
    + intros Hval. route. rewrite Hval, Hv. simpl. rewrite Hd.
      rewrite Hne. reflexivity.
    + route. destruct (validate_update (curr ctx) b); simpl; [|reflexivity].
      rewrite Hv. simpl. rewrite Hd. rewrite Hne. reflexivity.
  - intros Ho. route. rewrite Hv. simpl. rewrite Hd.
    rewrite (proj2 (String.eqb_neq _ _) Ho). reflexivity.
Qed.

(** ** Seats and group size *)

Lemma lookup_put_drive st id d : drives (put_drive st id d) !! id = Some d.
Proof. simpl. apply lookup_insert_eq. Qed.

Lemma lookup_put_drive_ne st id id' d :
  id <> id' -> drives (put_drive st id d) !! id' = drives st !! id'.
Proof. intros Hne. simpl. apply lookup_insert_ne, Hne. Qed.

Lemma leaves_nonneg evs : 0 <= leaves evs.
Proof. induction evs as [|[c|c] r IH]; cbn [leaves]; lia. Qed.

(** While the seats stay where every integer is a Number, each successful
    join adds one entry and takes one seat, each successful leave drops one
    entry and gives one seat back. *)
Lemma run_membership_counts id evs :
  forall st d st',
    drives st !! id = Some d ->
    - JS.safe_integer <= Drive.seats d ->
    Drive.seats d + leaves evs <= JS.safe_integer ->
    run_membership valid_oid accepts st id evs = Some st' ->
    exists d',
      drives st' !! id = Some d'
      /\ Drive.seats d' = Drive.seats d - joins evs + leaves evs
      /\ Z.of_nat (length (Drive.group d'))
         = Z.of_nat (length (Drive.group d)) + joins evs - leaves evs.
Proof.
  induction evs as [|ev rest IH]; intros st d st' Hd Hlo Hhi Hrun.
  - injection Hrun as <-. exists d. simpl. repeat split; [exact Hd|lia|lia].
  - cbn [run_membership] in Hrun.
    destruct (Z.eqb_spec (status (fst (membership_step valid_oid accepts st id ev))) 200)
      as [H200|]; [|discriminate].
    pose proof (leaves_nonneg rest) as Hl.
    destruct ev as [ctx|ctx]; cbn [membership_step leaves] in *.
    + destruct (join_drive_inv ctx st id)
        as [[_ Hs]|(d0 & u & p & _ & Hd0 & _ & _ & _ & Hone & Heq)]; [contradiction|].
      rewrite Hd in Hd0. injection Hd0 as <-. rewrite Heq in Hrun.
      cbn [snd] in Hrun.
      assert (Hseats : Drive.seats (after_join ctx u p d) = Drive.seats d - 1)
        by (cbn [after_join Drive.seats]; apply minus_exact; lia).
      destruct (IH _ _ _ (lookup_put_drive st id _)
                  ltac:(rewrite Hseats; lia) ltac:(rewrite Hseats; lia) Hrun)
        as (d' & Hd' & Hs' & Hg').
      exists d'. split; [exact Hd'|]. cbn [joins].
      rewrite Hseats in Hs'. cbn [after_join Drive.group length] in Hg'.
      split; lia.
    + destruct (leave_drive_inv ctx st id)
        as [[_ Hs]|(d0 & _ & Hd0 & Hm & Heq)]; [contradiction|].
      rewrite Hd in Hd0. injection Hd0 as <-. rewrite Heq in Hrun.
      cbn [snd] in Hrun.
      assert (Hseats : Drive.seats (after_leave ctx d) = Drive.seats d + 1)
        by (cbn [after_leave Drive.seats]; apply plus_exact; lia).
      destruct (IH _ _ _ (lookup_put_drive st id _)
                  ltac:(rewrite Hseats; lia) ltac:(rewrite Hseats; lia) Hrun)
        as (d' & Hd' & Hs' & Hg').
      exists d'. split; [exact Hd'|]. cbn [joins].
      pose proof (remove_first_length _ _ Hm) as Hlen.
      rewrite Hseats in Hs'.
      unfold after_leave, remove_first_member in Hg'. cbn [Drive.group] in Hg'.
      split; lia.
Qed.

(** C6, as the code has it: [seats] is a Number.  From a stored drive with
    [S] seats and a group of [g] entries, with [-2^53 <= S] and
    [S + M <= 2^53], any sequence of successful joins and leaves on it, [N]
    joins and [M] leaves, ends with [S - N + M] seats and a group of
    [g + N - M] entries: [1 + N - M] when the group held the driver
    alone. *)
Theorem seats_and_group_after_membership st id d evs st' :
  drives st !! id = Some d ->
  - JS.safe_integer <= Drive.seats d ->
  Drive.seats d + leaves evs <= JS.safe_integer ->
  run_membership valid_oid accepts st id evs = Some st' ->
  exists d',
    drives st' !! id = Some d'
    /\ Drive.seats d' = Drive.seats d - joins evs + leaves evs
    /\ Z.of_nat (length (Drive.group d'))
       = Z.of_nat (length (Drive.group d)) + joins evs - leaves evs
    /\ (length (Drive.group d) = 1%nat ->
        Z.of_nat (length (Drive.group d')) = 1 + joins evs - leaves evs).
Proof.
  intros Hd Hlo Hhi Hrun.
  destruct (run_membership_counts id evs st d st' Hd Hlo Hhi Hrun)
    as (d' & Hd' & Hs' & Hg').
  exists d'. repeat split; [exact Hd'|exact Hs'|exact Hg'|].
  intros Hone. rewrite Hone in Hg'. lia.
Qed.

(** ** One group entry per user *)

Lemma remove_first_sublist {A} (p : A -> bool) (l : list A) :
  remove_first p l `sublist_of` l.
Proof.
  induction l as [|x r IH]; simpl; [constructor|].
  destruct (p x); [apply sublist_cons; reflexivity|apply sublist_skip, IH].
Qed.

Lemma group_unique_put st id d :
  group_unique st -> NoDup (group_users d) -> group_unique (put_drive st id d).
Proof.
  intros Hst Hd. unfold group_unique. simpl.
  apply map_Forall_insert_2; assumption.
Qed.

Lemma group_unique_lookup st id d :
  group_unique st -> drives st !! id = Some d -> NoDup (group_users d).
Proof. intros Hst Hd. exact (map_Forall_lookup_1 _ _ _ _ Hst Hd). Qed.

Lemma not_member_not_in who d :
  is_member who d = false -> who ∉ group_users d.
Proof.
  intros Hm Hin. apply list_elem_of_In in Hin.
  apply (existsb_eqb_In Member.user) in Hin.
  unfold is_member in Hm. congruence.
Qed.

Lemma handle_group_unique ctx st req :
  group_unique st ->
  group_unique (snd (handle valid_oid accepts updates globals ctx st req)).
Proof.
  intros Hst. destruct req as [id|b|id b|id|id|id|id text|id cid]; cbn [handle].
  - rewrite get_drive_store. exact Hst.
  - rewrite (proj1 (create_drive_inv ctx st b)). exact Hst.
  - destruct (update_drive_inv ctx st id b) as [[-> _]|(d & u & _ & _ & Hd & _ & _ & ->)];
      [exact Hst|].
    apply group_unique_put; [exact Hst|].
    exact (group_unique_lookup _ _ _ Hst Hd).
  - destruct (delete_drive_inv ctx st id) as [[-> _]|(d & _ & _ & _ & ->)];
      [exact Hst|].
    unfold group_unique. simpl. apply map_Forall_delete, Hst.
  - destruct (join_drive_inv ctx st id)
      as [[-> _]|(d & u & p & _ & Hd & _ & _ & Hm & _ & ->)]; [exact Hst|].
    apply group_unique_put; [exact Hst|].
    unfold group_users. simpl. apply NoDup_cons. split.
    + apply not_member_not_in, Hm.
    + exact (group_unique_lookup _ _ _ Hst Hd).
  - destruct (leave_drive_inv ctx st id) as [[-> _]|(d & _ & Hd & _ & ->)];
      [exact Hst|].
    apply group_unique_put; [exact Hst|].
    unfold group_users, after_leave, remove_first_member. simpl.
    apply remove_first_NoDup. exact (group_unique_lookup _ _ _ Hst Hd).
  - destruct (add_comment_inv ctx st id text) as [[-> _]|(d & u & _ & Hd & ->)];
      [exact Hst|].
    apply group_unique_put; [exact Hst|].
    exact (group_unique_lookup _ _ _ Hst Hd).
  - destruct (remove_comment_inv ctx st id cid)
      as [[-> _]|(d & c & _ & Hd & _ & _ & ->)]; [exact Hst|].
    apply group_unique_put; [exact Hst|].
    exact (group_unique_lookup _ _ _ Hst Hd).
Qed.

(** C7, and where the create route departs from it: in a store where every
    group has at most one entry per user id, every request leaves such a
    store; the create route, for a body that passes validation and a caller
    with a user document and a profile, builds a group of one entry, the
    owner's, but it names the destination [hike] where the schema requires
    [resort], so the request is answered 500 and no drive, seeded or not, is
    stored; a join by a caller already in the group is refused and stores
    nothing; and the group a leave stores is a sublist of the group it
    found. *)
Theorem group_unique_invariant ctx st :
  group_unique st ->
  (forall req, group_unique (snd (handle valid_oid accepts updates globals ctx st req)))
  /\ (forall b u p,
        validate_create (curr ctx) b = [] ->
        users st !! caller ctx = Some u ->
        profiles st !! caller ctx = Some p ->
        map Member.user (seed_group ctx u p) = [caller ctx]
        /\ path "resort" (Drive_literal u b) = None
        /\ create_drive accepts ctx st b = (server_error, st))
  /\ (forall id d,
        drives st !! id = Some d -> is_member (caller ctx) d = true ->
        snd (join_drive valid_oid accepts ctx st id) = st
        /\ status (fst (join_drive valid_oid accepts ctx st id)) <> 200)
  /\ (forall id d d',
        drives st !! id = Some d ->
        drives (snd (leave_drive valid_oid accepts ctx st id)) !! id = Some d' ->
        Drive.group d' `sublist_of` Drive.group d).
Proof.
  intros Hst. split; [|split; [|split]].
  - intros req. apply handle_group_unique, Hst.
  - intros b u p Hval Hu Hp.
    split; [reflexivity|]. split; [reflexivity|].
    exact (create_drive_valid ctx st b u p Hval Hu Hp).
  - intros id d Hd Hm.
    destruct (join_drive_inv ctx st id)
      as [Hleft|(d0 & u & p & _ & Hd0 & _ & _ & Hm0 & _)]; [exact Hleft|].
    rewrite Hd in Hd0. injection Hd0 as <-. congruence.
  - intros id d d' Hd Hd'.
    destruct (leave_drive_inv ctx st id) as [[Hsame _]|(d0 & _ & Hd0 & _ & Heq)].
    + rewrite Hsame, Hd in Hd'. injection Hd' as <-. reflexivity.
    + rewrite Heq in Hd'. cbn [snd] in Hd'. rewrite lookup_put_drive in Hd'.
      injection Hd' as <-. rewrite Hd in Hd0. injection Hd0 as <-.
      apply remove_first_sublist.
Qed.

(** ** Update and create *)

(** C8: a successful update of a drive, which only its owner obtains,
    stores a document with the group, the comments, the name and the
    creation date it found; no other drive, no user and no profile
    changes. *)
Theorem update_keeps_group_and_comments ctx st id b d res st' :
  drives st !! id = Some d ->
  update_drive valid_oid updates ctx st id b = (res, st') ->
  status res = 200 ->
  exists d',
    drives st' !! id = Some d'
    /\ res = json (JsonDrive d')
    /\ Drive.user d = caller ctx
    /\ Drive.group d' = Drive.group d
    /\ Drive.comments d' = Drive.comments d
    /\ Drive.name d' = Drive.name d
    /\ Drive.date d' = Drive.date d
    /\ (forall id', id <> id' -> drives st' !! id' = drives st !! id')
    /\ users st' = users st
    /\ profiles st' = profiles st.
Proof.
  intros Hd Hupd H200.
  destruct (update_drive_inv ctx st id b)
    as [[_ Hs]|(d0 & u & _ & _ & Hd0 & Ho & _ & Heq)].
  - rewrite Hupd in Hs. contradiction.
  - rewrite Hupd in Heq. injection Heq as -> ->.
    rewrite Hd in Hd0. injection Hd0 as <-.
    exists (after_update ctx u b d).
    split; [apply lookup_put_drive|].
    repeat split; try reflexivity; try exact Ho.
    intros id' Hne. apply lookup_put_drive_ne, Hne.
Qed.

(** The six properties the update sets; [hike] of [driveFields] is no path
    of the schema and the destination stays as it was. *)
Lemma update_sets_fields ctx st id b d res st' :
  drives st !! id = Some d ->
  update_drive valid_oid updates ctx st id b = (res, st') ->
  status res = 200 ->
  exists d' u,
    drives st' !! id = Some d'
    /\ users st !! caller ctx = Some u
    /\ Drive.user d' = caller ctx
    /\ Drive.avatar d' = User.avatar u
    /\ Some (Drive.leavingDate d') = Body.leavingDate b
    /\ Some (Drive.leavingTime d') = Body.leavingTime b
    /\ Drive.resort d' = Drive.resort d
    /\ Some (Drive.seats d') = Body.seats b
    /\ Some (Drive.description d') = Body.description b.
Proof.
  intros Hd Hupd H200.
  destruct (update_drive_inv ctx st id b)
    as [[_ Hs]|(d0 & u & Hval & _ & Hd0 & Ho & Hu & Heq)].
  - rewrite Hupd in Hs. contradiction.
  - rewrite Hupd in Heq. injection Heq as -> ->.
    rewrite Hd in Hd0. injection Hd0 as <-.
    exists (after_update ctx u b d), u.
    split; [apply lookup_put_drive|]. split; [exact Hu|].
    destruct (validate_update_present _ _ Hval)
      as (ld & tm & hk & se & ds & ->).
    repeat split; try reflexivity.
Qed.

(** C9: with no profile document for the caller, a create request that
    passes validation is answered 500 "Server Error", not a 400 with a
    message, and stores nothing; the join route, for a caller whose user
    document exists, does answer the 400 "You need a profile to join
    drives". *)
Theorem create_without_profile ctx st b :
  profiles st !! caller ctx = None ->
  validate_create (curr ctx) b = [] ->
  create_drive accepts ctx st b = (server_error, st)
  /\ (forall id d u,
        valid_oid id = true -> drives st !! id = Some d ->
        users st !! caller ctx = Some u ->
        is_member (caller ctx) d = false -> 1 <= Drive.seats d ->
        join_drive valid_oid accepts ctx st id
        = (status_json 400 "You need a profile to join drives", st)).
Proof.
  intros Hp Hval. split.
  - route. rewrite Hval, Hp. simpl.
    destruct (users st !! caller ctx); reflexivity.
  - intros id d u Hv Hd Hu Hm Hs. route. rewrite Hv. simpl. rewrite Hd, Hu, Hp.
    rewrite filter_try_found. simpl. rewrite filter_length_existsb.
    fold (is_member (caller ctx) d). rewrite Hm.
    replace (Drive.seats d <? 1) with false by (symmetry; apply Z.ltb_ge; lia).
    reflexivity.
Qed.

End Routes.

(** ** The date validator *)

Lemma custom_create_update_agree c s :
  leavingDate_custom_create c s = leavingDate_custom_update c s.
Proof. reflexivity. Qed.

Lemma forall_below (f : Z -> bool) (bound : Z) :
  forallb f (map Z.of_nat (seq 0 (Z.to_nat bound))) = true ->
  forall n, 0 <= n < bound -> f n = true.
Proof.
  intros H n Hn. rewrite forallb_forall in H. apply H.
  apply in_map_iff. exists (Z.to_nat n). split; [lia|].
  apply in_seq. lia.
Qed.

Lemma forall_ascii (f : ascii -> bool) :
  forallb f all_ascii = true -> forall c, f c = true.
Proof.
  intros H c. rewrite forallb_forall in H. apply H.
  apply in_map_iff. exists (nat_of_ascii c).
  split; [apply ascii_nat_embedding|].
  apply in_seq. pose proof (nat_ascii_bounded c). lia.
Qed.

Lemma renders_pad2 n : 0 <= n < 100 -> renders 2 pad2 n = true.
Proof.
  intros Hn. apply (forall_below (renders 2 pad2) 100); [|exact Hn].
  vm_compute. reflexivity.
Qed.

Lemma renders_pad4 n : 0 <= n < 10000 -> renders 4 pad4 n = true.
Proof.
  intros Hn. apply (forall_below (renders 4 pad4) 10000); [|exact Hn].
  vm_compute. reflexivity.
Qed.

Lemma two_digits_parse_all c0 c1 : two_digits_parse c0 c1 = true.
Proof.
  revert c1. apply forall_ascii. revert c0.
  apply (forall_ascii (fun c0 => forallb (two_digits_parse c0) all_ascii)).
  vm_compute. reflexivity.
Qed.

Lemma renders_inv w pad n :
  renders w pad n = true ->
  String.length (pad n) = w /\ slash_free (pad n) = true
  /\ JS.parseInt (pad n) = JS.Num n.
Proof.
  unfold renders. rewrite !andb_true_iff. intros [[Hl Hs] Hp].
  apply Nat.eqb_eq in Hl. repeat split; [exact Hl|exact Hs|].
  destruct (JS.parseInt (pad n)) as [|z]; simpl in Hp; [discriminate|].
  apply Z.eqb_eq in Hp. congruence.
Qed.

Lemma split_slash_free_last a :
  slash_free a = true -> JS.split "/" a = [a].
Proof.
  induction a as [|c r IH]; [reflexivity|].
  unfold slash_free. simpl. rewrite andb_true_iff. intros [Hc Hr].
  apply negb_true_iff in Hc. rewrite Hc.
  unfold slash_free in IH. rewrite (IH Hr). reflexivity.
Qed.

Lemma split_slash_free_head a r :
  slash_free a = true ->
  JS.split "/" (String.append a (String "/" r)) = a :: JS.split "/" r.
Proof.
  induction a as [|c a' IH]; [reflexivity|].
  unfold slash_free. simpl. rewrite andb_true_iff. intros [Hc Hr].
  apply negb_true_iff in Hc. rewrite Hc.
  unfold slash_free in IH. rewrite (IH Hr). reflexivity.
Qed.

Lemma length_append a b :
  String.length (String.append a b) = (String.length a + String.length b)%nat.
Proof. induction a as [|c a' IH]; simpl; [reflexivity|]. rewrite IH. reflexivity. Qed.

(** On a rendered date the validators decide by the temporal test alone. *)
Lemma custom_on_rendered c mo dy yr :
  0 <= mo < 100 -> 0 <= dy < 100 -> 0 <= yr < 10000 ->
  leavingDate_custom_create c (mmddyyyy mo dy yr)
  = if not_current_or_future c [JS.Num mo; JS.Num dy; JS.Num yr]
    then Thrown "Please Enter a Current or Future Date" else Pass.
Proof.
  intros Hmo Hdy Hyr.
  destruct (renders_inv _ _ _ (renders_pad2 mo Hmo)) as (Lm & Sm & Pm).
  destruct (renders_inv _ _ _ (renders_pad2 dy Hdy)) as (Ld & Sd & Pd).
  destruct (renders_inv _ _ _ (renders_pad4 yr Hyr)) as (Ly & Sy & Py).
  unfold leavingDate_custom_create, mmddyyyy.
  rewrite (split_slash_free_head _ _ Sm), (split_slash_free_head _ _ Sd),
    (split_slash_free_last _ Sy).
  rewrite length_append. cbn [String.length]. rewrite length_append.
  cbn [String.length]. rewrite Lm, Ld, Ly.
  cbn [map]. rewrite Pm, Pd, Py. reflexivity.
Qed.

(** The date of the server clock is accepted. *)
Lemma today_accepted c :
  calendar c ->
  leavingDate_custom_create c (today c) = Pass
  /\ leavingDate_custom_update c (today c) = Pass.
Proof.
  intros (Hm & Hd & Hy).
  assert (leavingDate_custom_create c (today c) = Pass) as H;
    [|split; [exact H|rewrite <- H; symmetry; apply custom_create_update_agree]].
  unfold today. rewrite custom_on_rendered by lia.
  unfold not_current_or_future. cbn [nth JS.lt JS.le JS.gt JS.eq].
  replace (JS.getMonth c + 1 <? JS.getMonth c) with false by lia.
  replace (JS.getMonth c + 1 <=? JS.getMonth c) with false by lia.
  replace (JS.getFullYear c <? JS.getFullYear c) with false by lia.
  replace (12 <? JS.getMonth c + 1) with false by lia.
  replace (31 <? JS.getDate c) with false by lia.
  replace (JS.getDate c <=? 0) with false by lia.
  reflexivity.
Qed.

(** The date ["13/01/2025"] is refused whatever the clock reads. *)
Lemma month13_rejected c :
  leavingDate_custom_create c "13/01/2025"
  = Thrown "Please Enter a Current or Future Date"
  /\ leavingDate_custom_update c "13/01/2025"
     = Thrown "Please Enter a Current or Future Date".
Proof.
  assert (leavingDate_custom_create c "13/01/2025"
          = Thrown "Please Enter a Current or Future Date") as H;
    [|split; [exact H|rewrite <- H; symmetry; apply custom_create_update_agree]].
  change "13/01/2025" with (mmddyyyy 13 1 2025).
  rewrite custom_on_rendered by lia.
  unfold not_current_or_future. cbn [nth JS.lt JS.le JS.gt JS.eq].
  change (12 <? 13) with true.
  rewrite orb_true_r. reflexivity.
Qed.

(** C2, where the code departs from it: whenever the clock reads a day of
    the month from the second on, both validators accept the day before, in
    the same month and year, because [getMonth] counts from 0 while the
    month typed counts from 1. *)
Theorem day_before_accepted c :
  calendar c ->
  2 <= JS.getDate c ->
  leavingDate_custom_create c (day_before c) = Pass
  /\ leavingDate_custom_update c (day_before c) = Pass.
Proof.
  intros (Hm & Hd & Hy) H2.
  assert (leavingDate_custom_create c (day_before c) = Pass) as H;
    [|split; [exact H|rewrite <- H; symmetry; apply custom_create_update_agree]].
  unfold day_before. rewrite custom_on_rendered by lia.
  unfold not_current_or_future. cbn [nth JS.lt JS.le JS.gt JS.eq].
  replace (JS.getMonth c + 1 <? JS.getMonth c) with false by lia.
  replace (JS.getMonth c + 1 <=? JS.getMonth c) with false by lia.
  replace (JS.getFullYear c <? JS.getFullYear c) with false by lia.
  replace (12 <? JS.getMonth c + 1) with false by lia.
  replace (31 <? JS.getDate c - 1) with false by lia.
  replace (JS.getDate c - 1 <=? 0) with false by lia.
  reflexivity.
Qed.

Lemma all_digits2_parse a :
  all_digits 2 a = true -> JS.parseInt a <> JS.NaN.
Proof.
  unfold all_digits. rewrite andb_true_iff. intros [Hl Hd].
  destruct a as [|c0 [|c1 [|c2 r]]]; simpl in Hl; try discriminate.
  simpl in Hd. rewrite andb_true_r in Hd.
  pose proof (two_digits_parse_all c0 c1) as H.
  unfold two_digits_parse in H. rewrite Hd in H. simpl in H.
  intros Hnan. rewrite Hnan in H. discriminate.
Qed.

(** C10: a string of ten characters that splits on the slash into three
    tokens, none of which [parseInt] reads as a number, is not in the
    [MM/DD/YYYY] layout, and yet both validators accept it and the
    [leavingDate] checks of create and update report no error. *)
Theorem unparsed_tokens_accepted c s t0 t1 t2 :
  String.length s = 10%nat ->
  JS.split "/" s = [t0; t1; t2] ->
  JS.parseInt t0 = JS.NaN ->
  JS.parseInt t1 = JS.NaN ->
  JS.parseInt t2 = JS.NaN ->
  layout_mmddyyyy s = false
  /\ not_current_or_future c (map JS.parseInt (JS.split "/" s)) = false
  /\ leavingDate_custom_create c s = Pass
  /\ leavingDate_custom_update c s = Pass
  /\ (not_isEmpty "Date is required" "leavingDate" (Some s)
      ++ custom (leavingDate_custom_create c) "leavingDate" (Some s))%list = []
  /\ (not_isEmpty "Date is required" "leavingDate" (Some s)
      ++ custom (leavingDate_custom_update c) "leavingDate" (Some s))%list = [].
Proof.
  intros Hl Hs H0 H1 H2.
  assert (Hpass : leavingDate_custom_create c s = Pass).
  { unfold leavingDate_custom_create. rewrite Hs, Hl. cbn [map].
    rewrite H0, H1, H2. reflexivity. }
  assert (Hne : isEmpty (Some s) = false).
  { destruct s; [discriminate|reflexivity]. }
  split; [|split; [|split; [|split; [|split]]]].
  - unfold layout_mmddyyyy. rewrite Hs.
    destruct (all_digits 2 t0) eqn:E; [|reflexivity].
    exfalso. exact (all_digits2_parse _ E H0).
  - rewrite Hs. cbn [map]. rewrite H0, H1, H2. reflexivity.
  - exact Hpass.
  - rewrite <- Hpass. symmetry. apply custom_create_update_agree.
  - unfold not_isEmpty, custom. rewrite Hne, Hpass. reflexivity.
  - unfold not_isEmpty, custom.
    replace (leavingDate_custom_update c s) with Pass
      by (rewrite <- Hpass; apply custom_create_update_agree).
    rewrite Hne. reflexivity.
Qed.

(** ** The properties on the sample data *)

(** Where [Post] is bound the route does prepend and store the comment. *)
Lemma add_comment_bound_Post :
  add_comment hex24 accept_all ("Post" :: source_globals) bob_ctx sample_store
    drive1_id (Some "Nice trail")
  = let c := Comment.mk (fresh bob_ctx) bob_id "Nice trail" "Bob" "b.png" 2000 in
    (json (JsonComments (c :: Drive.comments drive1)),
     put_drive sample_store drive1_id
       (with_comments drive1 (c :: Drive.comments drive1))).
Proof. reflexivity. Qed.

(** The sources assign no global [Post]: a caller with a user document, a
    non-empty text and an existing drive is answered 500. *)
Lemma add_comment_unbound_Post_witness :
  users sample_store !! caller bob_ctx = Some bob
  /\ drives sample_store !! drive1_id = Some drive1
  /\ add_comment hex24 accept_all source_globals bob_ctx sample_store
       drive1_id (Some "Nice trail")
     = (server_error, sample_store).
Proof.
  split; [reflexivity|]. split; [reflexivity|].
  exact (add_comment_unbound_Post hex24 accept_all source_globals bob_ctx
           sample_store drive1_id (Some "Nice trail") eq_refl eq_refl eq_refl).
Defined.

Lemma day_before_accepted_witness :
  calendar june15 /\ 2 <= JS.getDate june15
  /\ leavingDate_custom_create june15 "06/14/2025" = Pass
  /\ leavingDate_custom_update june15 "06/14/2025" = Pass.
Proof.
  assert (Hc : calendar june15) by (unfold calendar; simpl; lia).
  assert (H2 : 2 <= JS.getDate june15) by (simpl; lia).
  split; [exact Hc|]. split; [exact H2|].
  exact (day_before_accepted june15 Hc H2).
Defined.

(** The author of two comments asks to remove the second: the first goes,
    the targeted one stays in the list that is answered and stored, and
    removing by the comment id would have left the other one. *)
Lemma remove_comment_author_witness :
  let r := remove_comment hex24 accept_all bob_ctx sample_store drive1_id
             (Comment.id second_comment) in
  Drive.comments drive1 = [first_comment; second_comment]
  /\ fst r = json (JsonComments [second_comment])
  /\ drives (snd r) !! drive1_id = Some (with_comments drive1 [second_comment])
  /\ remove_comment_by_id (Comment.id second_comment) (Drive.comments drive1)
     = [first_comment].
Proof.
  destruct (remove_comment_author hex24 accept_all bob_ctx sample_store
              drive1_id (Comment.id second_comment) drive1 second_comment
              eq_refl eq_refl eq_refl eq_refl eq_refl) as [Heq _].
  cbv zeta. rewrite Heq.
  split; [reflexivity|]. split; [reflexivity|]. split; reflexivity.
Defined.

(** A malformed id sent to the join route is answered 400, not 404. *)
Lemma join_malformed_id_answers_400 :
  drive_id (JoinDrive "42") = Some "42"
  /\ unresolvable hex24 sample_store "42"
  /\ status (fst (handle hex24 accept_all accept_all source_globals bob_ctx sample_store
                    (JoinDrive "42"))) = 400
  /\ status (fst (handle hex24 accept_all accept_all source_globals bob_ctx sample_store
                    (JoinDrive "42"))) <> 404.
Proof.
  split; [reflexivity|]. split; [left; reflexivity|].
  split; [reflexivity|discriminate].
Qed.

Lemma unresolvable_id_status_witness :
  unresolvable hex24 sample_store "42"
  /\ handle hex24 accept_all accept_all source_globals bob_ctx sample_store (JoinDrive "42")
     = (status_json 400 "Drive not found", sample_store)
  /\ handle hex24 accept_all accept_all source_globals bob_ctx sample_store
       (LeaveDrive drive2_id)
     = (status_json 404 "Drive not found", sample_store).
Proof.
  assert (H42 : unresolvable hex24 sample_store "42") by (left; reflexivity).
  assert (Hd2 : unresolvable hex24 sample_store drive2_id) by (right; reflexivity).
  split; [exact H42|]. split.
  - exact (unresolvable_id_status hex24 accept_all accept_all source_globals bob_ctx
             sample_store (JoinDrive "42") "42" eq_refl H42 I
             (fun H => False_ind _ (Bool.diff_false_true H))).
  - exact (unresolvable_id_status hex24 accept_all accept_all source_globals bob_ctx
             sample_store (LeaveDrive drive2_id) drive2_id eq_refl Hd2 I
             (fun H => False_ind _ (Bool.diff_false_true H))).
Defined.

(** An update by a caller who is not the owner, with an empty description,
    is answered 400 by the validation, not 401. *)
Lemma update_by_other_invalid_body_answers_400 :
  hex24 drive1_id = true
  /\ drives sample_store !! drive1_id = Some drive1
  /\ Drive.user drive1 <> caller bob_ctx
  /\ status (fst (update_drive hex24 accept_all bob_ctx sample_store drive1_id
                    bad_body)) = 400
  /\ status (fst (update_drive hex24 accept_all bob_ctx sample_store drive1_id
                    bad_body)) <> 401.
Proof.
  split; [reflexivity|]. split; [reflexivity|].
  split; [apply String.eqb_neq; reflexivity|].
  split; [reflexivity|discriminate].
Qed.

Lemma refused_mutations_keep_store_witness :
  hex24 drive1_id = true
  /\ drives sample_store !! drive1_id = Some drive1
  /\ join_drive hex24 accept_all bob_ctx sample_store drive1_id
     = (status_json 400 "Drive full", sample_store)
  /\ update_drive hex24 accept_all bob_ctx sample_store drive1_id good_body
     = (status_json 401 "User not Authorized", sample_store)
  /\ snd (update_drive hex24 accept_all bob_ctx sample_store drive1_id bad_body)
     = sample_store
  /\ delete_drive hex24 bob_ctx sample_store drive1_id
     = (status_json 401 "User not authorized", sample_store).
Proof.
  assert (Ho : Drive.user drive1 <> caller bob_ctx)
    by (apply String.eqb_neq; reflexivity).
  destruct (refused_mutations_keep_store hex24 accept_all accept_all bob_ctx sample_store
              drive1_id drive1 eq_refl eq_refl) as (Hj & Hu & Hd).
  split; [reflexivity|]. split; [reflexivity|]. split; [|split; [|split]].
  - apply Hj; [reflexivity|reflexivity|]. exists bob. reflexivity.
  - apply (Hu Ho good_body). reflexivity.
  - apply (Hu Ho bad_body).
  - apply (Hd Ho).
Defined.

Lemma seats_and_group_after_membership_witness :
  drives open_store !! drive3_id = Some drive3
  /\ exists st2,
       run_membership hex24 accept_all open_store drive3_id bob_in_out_in
       = Some st2
       /\ exists d,
            drives st2 !! drive3_id = Some d
            /\ Drive.seats d = 0
            /\ Z.of_nat (length (Drive.group d)) = 2.
Proof.
  assert (Hlo : - JS.safe_integer <= Drive.seats drive3) by (vm_compute; discriminate).
  assert (Hhi : Drive.seats drive3 + leaves bob_in_out_in <= JS.safe_integer)
    by (vm_compute; discriminate).
  split; [reflexivity|]. eexists. split; [reflexivity|].
  destruct (seats_and_group_after_membership hex24 accept_all open_store
              drive3_id drive3 bob_in_out_in _ eq_refl Hlo Hhi eq_refl)
    as (d & Hd & Hs & _ & Hg).
  exists d. split; [exact Hd|]. split; [exact Hs|exact (Hg eq_refl)].
Defined.

(** With [2^53 + 2] seats, one join and one leave end at [2^53] seats: the
    seat taken rounds two down, and the seat given back rounds away. *)
Lemma seats_beyond_safe_integer :
  drives crowded_store !! drive3_id = Some crowded_drive
  /\ length (Drive.group crowded_drive) = 1%nat
  /\ joins bob_in_out <= Drive.seats crowded_drive
  /\ leaves bob_in_out <= Drive.seats crowded_drive
  /\ exists st2 d,
       run_membership hex24 accept_all crowded_store drive3_id bob_in_out
       = Some st2
       /\ drives st2 !! drive3_id = Some d
       /\ Drive.seats d = JS.safe_integer
       /\ Drive.seats d
          <> Drive.seats crowded_drive - joins bob_in_out + leaves bob_in_out.
Proof.
  split; [reflexivity|]. split; [reflexivity|].
  split; [vm_compute; discriminate|]. split; [vm_compute; discriminate|].
  eexists. eexists. split; [vm_compute; reflexivity|].
  split; [reflexivity|]. split; [reflexivity|].
  vm_compute. discriminate.
Qed.

Lemma sample_store_group_unique : group_unique sample_store.
Proof.
  unfold group_unique. simpl. apply map_Forall_insert_2; [|apply map_Forall_empty].
  apply NoDup_singleton.
Qed.

Lemma group_unique_invariant_witness :
  group_unique sample_store
  /\ (forall req,
        group_unique (snd (handle hex24 accept_all accept_all source_globals bob_ctx
                             sample_store req)))
  /\ map Member.user (seed_group alice_ctx alice rider) = [caller alice_ctx]
  /\ create_drive accept_all alice_ctx sample_store good_body
     = (server_error, sample_store)
  /\ snd (join_drive hex24 accept_all alice_ctx sample_store drive1_id)
     = sample_store.
Proof.
  pose proof sample_store_group_unique as Hst.
  destruct (group_unique_invariant hex24 accept_all accept_all source_globals
              bob_ctx sample_store Hst) as (Hreq & _).
  destruct (group_unique_invariant hex24 accept_all accept_all source_globals
              alice_ctx sample_store Hst) as (_ & Hcreate & Hjoin & _).
  destruct (Hcreate good_body alice rider eq_refl eq_refl eq_refl)
    as (Hseed & _ & H500).
  split; [exact Hst|]. split; [exact Hreq|].
  split; [exact Hseed|]. split; [exact H500|].
  exact (proj1 (Hjoin drive1_id drive1 eq_refl eq_refl)).
Defined.

Lemma update_keeps_group_and_comments_witness :
  exists d',
    drives (snd (update_drive hex24 accept_all alice_ctx sample_store drive1_id
                   good_body)) !! drive1_id = Some d'
    /\ Drive.seats d' = 3
    /\ Drive.group d' = [alice_entry]
    /\ Drive.comments d' = [first_comment; second_comment].
Proof.
  destruct (update_keeps_group_and_comments hex24 accept_all alice_ctx
              sample_store drive1_id good_body drive1 _ _ eq_refl eq_refl eq_refl)
    as (d' & Hd' & _ & _ & Hg & Hc & _).
  exists d'. split; [exact Hd'|]. split; [|split; [exact Hg|exact Hc]].
  cbn in Hd'. injection Hd' as <-. reflexivity.
Defined.

Lemma create_without_profile_witness :
  profiles no_profile_store !! caller alice_ctx = None
  /\ validate_create (curr alice_ctx) good_body = []
  /\ create_drive accept_all alice_ctx no_profile_store good_body
     = (server_error, no_profile_store).
Proof.
  split; [reflexivity|]. split; [reflexivity|].
  exact (proj1 (create_without_profile hex24 accept_all alice_ctx
                  no_profile_store good_body eq_refl eq_refl)).
Defined.

Lemma unparsed_tokens_accepted_witness :
  layout_mmddyyyy "aa/bb/cccc" = false
  /\ leavingDate_custom_create june15 "aa/bb/cccc" = Pass
  /\ leavingDate_custom_update june15 "aa/bb/cccc" = Pass.
Proof.
  destruct (unparsed_tokens_accepted june15 "aa/bb/cccc" "aa" "bb" "cccc"
              eq_refl eq_refl eq_refl eq_refl eq_refl)
    as (Hl & _ & Hc & Hu & _).
  split; [exact Hl|]. split; [exact Hc|exact Hu].
Defined.

(** * Further properties of the router *)

(** ** Format and temporal tests of the date validator *)

Lemma split_length sep s :
  length (JS.split sep s) = S (count_char sep s).
Proof.
  induction s as [|c r IH]; [reflexivity|].
  simpl. destruct (Ascii.eqb c sep); simpl; [rewrite IH; reflexivity|].
  destruct (JS.split sep r) as [|h t]; [discriminate|exact IH].
Qed.

(** X1: The format error is thrown exactly for the strings that do not have ten
    characters with two slashes among them. *)
Theorem format_error_iff c s :
  (leavingDate_custom_create c s = Thrown "Invalid Date, Check Zeroes"
   <-> ~ (String.length s = 10%nat /\ count_char "/" s = 2%nat))
  /\ (leavingDate_custom_update c s = Thrown "Invalid Date, Check Zeroes"
      <-> ~ (String.length s = 10%nat /\ count_char "/" s = 2%nat)).
Proof.
  assert (H : leavingDate_custom_create c s = Thrown "Invalid Date, Check Zeroes"
              <-> ~ (String.length s = 10%nat /\ count_char "/" s = 2%nat)).
  { unfold leavingDate_custom_create. rewrite length_map, split_length.
    destruct (Nat.eqb_spec (S (count_char "/" s)) 3) as [E3|E3];
      destruct (Nat.eqb_spec (String.length s) 10) as [E10|E10]; simpl.
    - assert (Hok : String.length s = 10%nat /\ count_char "/" s = 2%nat)
        by (split; [exact E10|lia]).
      destruct (not_current_or_future c _); split; try discriminate;
        intros Hn; exfalso; exact (Hn Hok).
    - split; [intros _ [? _]; contradiction|reflexivity].
    - split; [intros _ [_ ?]; lia|reflexivity].
    - split; [intros _ [? _]; contradiction|reflexivity]. }
  split; exact H.
Qed.

(** X2: A date rendered as two, two and four digits is accepted exactly when
    the month is at most 12, the day is from 1 to 31, the year is not before
    the clock's, and, in the clock's year, the month typed is not below
    [getMonth()] and, when equal to it, the day is not before the clock's. *)
Theorem rendered_date_accepted_iff c mo dy yr :
  0 <= mo < 100 -> 0 <= dy < 100 -> 0 <= yr < 10000 ->
  leavingDate_custom_create c (mmddyyyy mo dy yr) = Pass
  <-> (mo <= 12 /\ 1 <= dy <= 31 /\ JS.getFullYear c <= yr
       /\ (yr = JS.getFullYear c ->
           JS.getMonth c <= mo /\ (JS.getMonth c < mo \/ JS.getDate c <= dy))).
Proof.
  intros Hmo Hdy Hyr. rewrite custom_on_rendered by assumption.
  unfold not_current_or_future. cbn [nth JS.lt JS.le JS.gt JS.eq].
  destruct (Z.ltb_spec mo (JS.getMonth c)), (Z.eqb_spec yr (JS.getFullYear c)),
    (Z.leb_spec mo (JS.getMonth c)), (Z.ltb_spec dy (JS.getDate c)),
    (Z.ltb_spec yr (JS.getFullYear c)), (Z.ltb_spec 12 mo),
    (Z.ltb_spec 31 dy), (Z.leb_spec dy 0); simpl;
    split; intros Hx; try discriminate; try reflexivity; try lia.
Qed.

(** ** Joining, leaving, creating and deleting, one after the other *)

Lemma put_drive_same st id d : drives st !! id = Some d -> put_drive st id d = st.
Proof.
  intros Hd. destruct st as [us ps ds]. unfold put_drive, with_drives. simpl in *.
  f_equal. apply insert_id, Hd.
Qed.

Lemma put_drive_twice st id d1 d2 :
  put_drive (put_drive st id d1) id d2 = put_drive st id d2.
Proof.
  unfold put_drive, with_drives. simpl. f_equal. apply insert_insert_eq.
Qed.

Lemma after_leave_after_join ctx ctx' u p d :
  caller ctx' = caller ctx ->
  1 <= Drive.seats d <= JS.safe_integer ->
  after_leave ctx' (after_join ctx u p d) = d.
Proof.
  intros Hc Hs. destruct d. unfold after_leave, after_join, remove_first_member.
  cbn [Drive.user Drive.name Drive.avatar Drive.leavingDate Drive.leavingTime
       Drive.resort Drive.seats Drive.description Drive.group Drive.comments
       Drive.date Member.user joinFields remove_first] in *.
  rewrite Hc, String.eqb_refl. f_equal.
  rewrite minus_exact by lia. rewrite plus_exact by lia. lia.
Qed.

Lemma is_member_after_join ctx u p d :
  is_member (caller ctx) (after_join ctx u p d) = true.
Proof. unfold is_member. simpl. rewrite String.eqb_refl. reflexivity. Qed.

Lemma remove_first_gone {A} (f : A -> string) (x : string) (l : list A) :
  NoDup (map f l) ->
  existsb (fun a => String.eqb (f a) x)
    (remove_first (fun a => String.eqb (f a) x) l) = false.
Proof.
  induction l as [|a r IH]; simpl; [reflexivity|].
  intros Hnd. apply NoDup_cons in Hnd as [Ha Hr].
  destruct (String.eqb_spec (f a) x) as [E|E].
  - destruct (existsb _ r) eqn:Hex; [|reflexivity].
    exfalso. apply Ha. apply list_elem_of_In. rewrite E.
    apply (existsb_eqb_In f). exact Hex.
  - simpl. destruct (String.eqb_spec (f a) x); [contradiction|]. simpl. apply IH, Hr.
Qed.

Section Lifecycle.
Variable valid_oid : string -> bool.
Variable accepts : Drive.t -> bool.
Variable globals : list string.
Implicit Types (ctx : Context) (st : Store) (id : string) (d : Drive.t).

Lemma join_drive_success ctx st id d u p :
  valid_oid id = true -> drives st !! id = Some d ->
  users st !! caller ctx = Some u -> profiles st !! caller ctx = Some p ->
  is_member (caller ctx) d = false -> 1 <= Drive.seats d ->
  accepts (after_join ctx u p d) = true ->
  join_drive valid_oid accepts ctx st id
  = (json (JsonGroup (joinFields ctx u p :: Drive.group d)),
     put_drive st id (after_join ctx u p d)).
Proof.
  intros Hv Hd Hu Hp Hm Hs Ha. route. rewrite Hv. simpl. rewrite Hd, Hu, Hp.
  rewrite filter_try_found. simpl. rewrite filter_length_existsb.
  fold (is_member (caller ctx) d). rewrite Hm.
  replace (Drive.seats d <? 1) with false by (symmetry; apply Z.ltb_ge; lia).
  simpl. fold (after_join ctx u p d). rewrite Ha. reflexivity.
Qed.

Lemma leave_drive_success ctx st id d :
  valid_oid id = true -> drives st !! id = Some d ->
  is_member (caller ctx) d = true ->
  accepts (after_leave ctx d) = true ->
  leave_drive valid_oid accepts ctx st id
  = (json (JsonGroup (remove_first_member (caller ctx) (Drive.group d))),
     put_drive st id (after_leave ctx d)).
Proof.
  intros Hv Hd Hm Ha.
  destruct (leave_drive_inv valid_oid accepts ctx st id)
    as [[_ Hs]|(d0 & _ & Hd0 & _ & Heq)].
  - exfalso. apply Hs. route. rewrite Hv. simpl. rewrite Hd.
    pose proof (filter_length_existsb
      (fun join => String.eqb (Member.user join) (caller ctx)) (Drive.group d)) as Hf.
    fold (is_member (caller ctx) d) in Hf. rewrite Hm in Hf.
    apply Nat.ltb_lt in Hf.
    replace (_ =? 0)%nat with false by (symmetry; apply Nat.eqb_neq; lia).
    unfold is_member in Hm. rewrite (splice_indexOf Member.user _ _ Hm).
    fold (remove_first_member (caller ctx) (Drive.group d)).
    fold (after_leave ctx d). rewrite Ha. reflexivity.
  - rewrite Hd in Hd0. injection Hd0 as <-. exact Heq.
Qed.

(** X3: Leaving a drive one has not joined is refused with 400 "Drive not
    joined" and stores nothing. *)
Theorem leave_not_joined ctx st id d :
  valid_oid id = true -> drives st !! id = Some d ->
  is_member (caller ctx) d = false ->
  leave_drive valid_oid accepts ctx st id
  = (status_json 400 "Drive not joined", st).
Proof.
  intros Hv Hd Hm. route. rewrite Hv. simpl. rewrite Hd.
  pose proof (filter_length_existsb
    (fun join => String.eqb (Member.user join) (caller ctx)) (Drive.group d)) as Hf.
  fold (is_member (caller ctx) d) in Hf. rewrite Hm in Hf.
  apply Nat.ltb_ge in Hf.
  replace (_ =? 0)%nat with true by (symmetry; apply Nat.eqb_eq; lia).
  reflexivity.
Qed.

(** X4: While the seat count is at most [2^53], a join followed by a leave
    of the same caller puts the store back as it was: the entry added in
    front is the one removed, and the seat taken is given back. *)
Theorem join_then_leave_restores ctx ctx' st id d u p :
  valid_oid id = true -> drives st !! id = Some d ->
  users st !! caller ctx = Some u -> profiles st !! caller ctx = Some p ->
  is_member (caller ctx) d = false ->
  1 <= Drive.seats d -> Drive.seats d <= JS.safe_integer ->
  accepts (after_join ctx u p d) = true -> accepts d = true ->
  caller ctx' = caller ctx ->
  status (fst (join_drive valid_oid accepts ctx st id)) = 200
  /\ leave_drive valid_oid accepts ctx'
       (snd (join_drive valid_oid accepts ctx st id)) id
     = (json (JsonGroup (Drive.group d)), st).
Proof.
  intros Hv Hd Hu Hp Hm Hs Hsafe Ha Had Hc.
  rewrite (join_drive_success ctx st id d u p) by assumption.
  split; [reflexivity|]. cbn [snd].
  pose proof (after_leave_after_join ctx ctx' u p d Hc (conj Hs Hsafe)) as Hback.
  rewrite (leave_drive_success ctx' _ id (after_join ctx u p d)).
  - rewrite Hback, put_drive_twice, (put_drive_same st id d Hd).
    unfold remove_first_member. simpl. rewrite Hc, String.eqb_refl. reflexivity.
  - exact Hv.
  - apply lookup_put_drive.
  - rewrite Hc. apply is_member_after_join.
  - rewrite Hback. exact Had.
Qed.

(** X5: After a successful join, a second join of the same caller is refused
    with 400 "Drive already joined" and stores nothing more. *)
Theorem join_twice_refused ctx ctx' st id res st' :
  join_drive valid_oid accepts ctx st id = (res, st') ->
  status res = 200 ->
  caller ctx' = caller ctx ->
  join_drive valid_oid accepts ctx' st' id
  = (status_json 400 "Drive already joined", st').
Proof.
  intros Hjoin H200 Hc.
  destruct (join_drive_inv valid_oid accepts ctx st id)
    as [[_ Hs]|(d & u & p & Hv & Hd & Hu & _ & _ & _ & Heq)].
  - rewrite Hjoin in Hs. contradiction.
  - rewrite Hjoin in Heq. injection Heq as -> ->.
    route. rewrite Hv. cbn [bind]. rewrite lookup_put_drive.
    cbn [users put_drive with_drives]. rewrite Hc, Hu.
    rewrite filter_try_found. cbn [bind]. rewrite filter_length_existsb.
    pose proof (is_member_after_join ctx u p d) as Hm. unfold is_member in Hm.
    rewrite Hm. reflexivity.
Qed.

(** X6: When the group holds at most one entry per user, a caller who has
    left is no longer in the group, and leaving again is refused. *)
Theorem leave_twice_refused ctx ctx' st id d res st' :
  drives st !! id = Some d ->
  NoDup (group_users d) ->
  leave_drive valid_oid accepts ctx st id = (res, st') ->
  status res = 200 ->
  caller ctx' = caller ctx ->
  (exists d', drives st' !! id = Some d' /\ is_member (caller ctx) d' = false)
  /\ leave_drive valid_oid accepts ctx' st' id
     = (status_json 400 "Drive not joined", st').
Proof.
  intros Hd Hnd Hleave H200 Hc.
  destruct (leave_drive_inv valid_oid accepts ctx st id)
    as [[_ Hs]|(d0 & Hv & Hd0 & _ & Heq)].
  - rewrite Hleave in Hs. contradiction.
  - rewrite Hleave in Heq. injection Heq as -> ->.
    rewrite Hd in Hd0. injection Hd0 as <-.
    assert (Hgone : is_member (caller ctx) (after_leave ctx d) = false).
    { unfold is_member, after_leave, remove_first_member. simpl.
      apply (remove_first_gone Member.user). exact Hnd. }
    split.
    + exists (after_leave ctx d). split; [apply lookup_put_drive|exact Hgone].
    + apply (leave_not_joined ctx' _ id (after_leave ctx d)).
      * exact Hv.
      * apply lookup_put_drive.
      * rewrite Hc. exact Hgone.
Qed.

(** X7: The create route never stores a drive: a body the validation
    refuses is answered 400 with the errors, and every other body is
    answered 500 "Server Error", whoever the caller and whatever the store,
    since the document is built without the [resort] the schema requires. *)
Theorem create_never_stores ctx st b :
  create_drive accepts ctx st b
  = (if errors_isEmpty (validate_create (curr ctx) b)
     then server_error
     else bad_request (validate_create (curr ctx) b),
     st).
Proof. apply create_drive_eq. Qed.

(** X8: Once its owner has deleted a drive, reading it answers 404; no other
    drive, no user and no profile is touched by the deletion. *)
Theorem delete_then_get ctx st id res st' :
  delete_drive valid_oid ctx st id = (res, st') ->
  status res = 200 ->
  get_drive valid_oid st' id = (status_json 404 "Drive not found", st')
  /\ (exists d, drives st !! id = Some d /\ Drive.user d = caller ctx)
  /\ (forall id', id <> id' -> drives st' !! id' = drives st !! id')
  /\ users st' = users st /\ profiles st' = profiles st.
Proof.
  intros Hdel H200.
  destruct (delete_drive_inv valid_oid ctx st id)
    as [[_ Hs]|(d & Hv & Hd & Ho & Heq)].
  - rewrite Hdel in Hs. contradiction.
  - rewrite Hdel in Heq. injection Heq as -> ->.
    split; [|split; [|split; [|split]]].
    + route. rewrite Hv. cbn [bind drives with_drives].
      rewrite lookup_delete_eq. reflexivity.
    + exists d. split; assumption.
    + intros id' Hne. cbn [drives with_drives]. apply lookup_delete_ne, Hne.
    + reflexivity.
    + reflexivity.
Qed.

End Lifecycle.

(** ** What a request can and cannot write *)

Section Frames.
Variable valid_oid : string -> bool.
Variable accepts : Drive.t -> bool.
Variable updates : Drive.t -> bool.
Variable globals : list string.
Implicit Types (ctx : Context) (st : Store) (id : string) (d : Drive.t).

Lemma update_drive_ok_seats ctx st id b :
  status (fst (update_drive valid_oid updates ctx st id b)) = 200 ->
  0 <= default 0 (Body.seats b).
Proof.
  route. destruct (validate_update (curr ctx) b); simpl; [|discriminate].
  destruct (valid_oid id); simpl; [|discriminate].
  destruct (drives st !! id) as [d|]; simpl; [|discriminate].
  destruct (negb _); simpl; [discriminate|].
  destruct (Z.ltb_spec (default 0 (Body.seats b)) 0); simpl; [discriminate|].
  intros _. assumption.
Qed.

(** Every request either leaves the store alone, or replaces one drive, or
    deletes one. *)
Lemma handle_effect ctx st req :
  snd (handle valid_oid accepts updates globals ctx st req) = st
  \/ (exists id d d',
        drive_id req = Some id /\ drives st !! id = Some d
        /\ written ctx req d d'
        /\ snd (handle valid_oid accepts updates globals ctx st req) = put_drive st id d')
  \/ (exists id d,
        req = DeleteDrive id /\ drives st !! id = Some d
        /\ Drive.user d = caller ctx
        /\ snd (handle valid_oid accepts updates globals ctx st req)
           = with_drives st (delete id (drives st))).
Proof.
  destruct req as [id|b|id b|id|id|id|id text|id cid]; cbn [handle].
  - left. apply get_drive_store.
  - left. exact (proj1 (create_drive_inv accepts ctx st b)).
  - destruct (update_drive_inv valid_oid updates ctx st id b)
      as [[Hs _]|(d & u & _ & _ & Hd & Ho & _ & Heq)]; [left; exact Hs|].
    right; left. exists id, d, (after_update ctx u b d).
    split; [reflexivity|]. split; [exact Hd|]. split.
    + split; [exists u; reflexivity|]. split; [exact Ho|].
      apply (update_drive_ok_seats ctx st id b). rewrite Heq. reflexivity.
    + rewrite Heq. reflexivity.
  - destruct (delete_drive_inv valid_oid ctx st id)
      as [[Hs _]|(d & _ & Hd & Ho & Heq)]; [left; exact Hs|].
    right; right. exists id, d. rewrite Heq. repeat split; assumption.
  - destruct (join_drive_inv valid_oid accepts ctx st id)
      as [[Hs _]|(d & u & p & _ & Hd & _ & _ & Hm & Hse & Heq)]; [left; exact Hs|].
    right; left. exists id, d, (after_join ctx u p d).
    split; [reflexivity|]. split; [exact Hd|]. split.
    + split; [exists u, p; reflexivity|]. split; assumption.
    + rewrite Heq. reflexivity.
  - destruct (leave_drive_inv valid_oid accepts ctx st id)
      as [[Hs _]|(d & _ & Hd & Hm & Heq)]; [left; exact Hs|].
    right; left. exists id, d, (after_leave ctx d).
    split; [reflexivity|]. split; [exact Hd|]. split.
    + split; [reflexivity|exact Hm].
    + rewrite Heq. reflexivity.
  - destruct (add_comment_inv valid_oid accepts globals ctx st id text)
      as [[Hs _]|(d & u & _ & Hd & Heq)]; [left; exact Hs|].
    right; left. exists id, d. eexists.
    split; [reflexivity|]. split; [exact Hd|]. split; [|exact Heq].
    eexists. reflexivity.
  - destruct (remove_comment_inv valid_oid accepts ctx st id cid)
      as [[Hs _]|(d & c & _ & Hd & _ & _ & Heq)]; [left; exact Hs|].
    right; left. exists id, d. eexists.
    split; [reflexivity|]. split; [exact Hd|]. split; [|rewrite Heq; reflexivity].
    reflexivity.
Qed.

(** X9: A request writes at most the drive under the id of its path, or under
    the fresh id for create: every other drive, every user and every
    profile stays as it was. *)
Theorem handle_frame ctx st req :
  users (snd (handle valid_oid accepts updates globals ctx st req)) = users st
  /\ profiles (snd (handle valid_oid accepts updates globals ctx st req)) = profiles st
  /\ forall id, id <> touched ctx req ->
       drives (snd (handle valid_oid accepts updates globals ctx st req)) !! id
       = drives st !! id.
Proof.
  destruct (handle_effect ctx st req)
    as [->|[(i & d & d' & Hi & _ & _ & ->)|(i & d & -> & _ & _ & ->)]].
  - repeat split; reflexivity.
  - repeat split; try reflexivity. intros id Hne.
    apply lookup_put_drive_ne. intros E. apply Hne.
    unfold touched. rewrite Hi. symmetry. exact E.
  - repeat split; try reflexivity. intros id Hne. cbn [drives with_drives].
    apply lookup_delete_ne. intros E. apply Hne. rewrite <- E. reflexivity.
Qed.

(** X10: The owner, the owner's name and the creation date of a drive never
    change, whatever the request. *)
Theorem owner_never_changes ctx st req id d d' :
  drives st !! id = Some d ->
  drives (snd (handle valid_oid accepts updates globals ctx st req)) !! id = Some d' ->
  Drive.user d' = Drive.user d /\ Drive.name d' = Drive.name d
  /\ Drive.date d' = Drive.date d.
Proof.
  intros Hd.
  destruct (handle_effect ctx st req)
    as [->|[(i & d0 & d1 & Hi & Hd0 & Hw & ->)|(i & d0 & -> & _ & _ & ->)]].
  - intros Hd'. rewrite Hd in Hd'. injection Hd' as <-. repeat split.
  - destruct (decide (i = id)) as [->|Hne].
    + rewrite lookup_put_drive. intros Hd'. injection Hd' as <-.
      rewrite Hd in Hd0. injection Hd0 as <-.
      destruct req; simpl in Hw; try contradiction.
      * destruct Hw as ((u & ->) & Ho & _). simpl. repeat split. symmetry. exact Ho.
      * destruct Hw as ((u & p & ->) & _). repeat split.
      * destruct Hw as (-> & _). repeat split.
      * destruct Hw as (c & ->). repeat split.
      * rewrite Hw. repeat split.
    + rewrite lookup_put_drive_ne by exact Hne.
      intros Hd'. rewrite Hd in Hd'. injection Hd' as <-. repeat split.
  - cbn [drives with_drives]. destruct (decide (i = id)) as [->|Hne].
    + rewrite lookup_delete_eq. discriminate.
    + rewrite lookup_delete_ne by exact Hne.
      intros Hd'. rewrite Hd in Hd'. injection Hd' as <-. repeat split.
Qed.

(** X11: Only create adds a drive, and only under the fresh id; only delete
    removes one, and only the one its path names. *)
Theorem only_create_adds_only_delete_removes ctx st req id :
  (is_Some (drives (snd (handle valid_oid accepts updates globals ctx st req)) !! id) ->
   is_Some (drives st !! id)
   \/ (exists b, req = CreateDrive b) /\ id = fresh ctx)
  /\ (is_Some (drives st !! id) ->
      is_Some (drives (snd (handle valid_oid accepts updates globals ctx st req)) !! id)
      \/ req = DeleteDrive id).
Proof.
  destruct (handle_effect ctx st req)
    as [->|[(i & d0 & d1 & Hi & Hd0 & Hw & ->)|(i & d0 & -> & _ & _ & ->)]].
  - split; intros H; left; exact H.
  - split; intros H.
    + left. destruct (decide (i = id)) as [<-|Hne].
      * rewrite Hd0. eexists. reflexivity.
      * rewrite lookup_put_drive_ne in H by exact Hne. exact H.
    + left. destruct (decide (i = id)) as [<-|Hne].
      * rewrite lookup_put_drive. eexists. reflexivity.
      * rewrite lookup_put_drive_ne by exact Hne. exact H.
  - cbn [drives with_drives]. split; intros H.
    + left. destruct (decide (i = id)) as [<-|Hne].
      * rewrite lookup_delete_eq in H. destruct H as [? H]. discriminate.
      * rewrite lookup_delete_ne in H by exact Hne. exact H.
    + destruct (decide (i = id)) as [<-|Hne].
      * right. reflexivity.
      * left. rewrite lookup_delete_ne by exact Hne. exact H.
Qed.

(** X12: Join and leave change nothing of a drive but its seats and its group;
    adding and removing a comment change nothing but its comments. *)
Theorem membership_and_comment_frames ctx st req id d d' :
  drives st !! id = Some d ->
  drives (snd (handle valid_oid accepts updates globals ctx st req)) !! id = Some d' ->
  ((exists i, req = JoinDrive i \/ req = LeaveDrive i) ->
   same_trip d d' /\ Drive.comments d' = Drive.comments d)
  /\ (comment_route req = true ->
      same_trip d d' /\ Drive.group d' = Drive.group d
      /\ Drive.seats d' = Drive.seats d).
Proof.
  intros Hd.
  assert (Hrefl : forall x, same_trip x x) by (intros x; repeat split).
  destruct (handle_effect ctx st req)
    as [->|[(i & d0 & d1 & Hi & Hd0 & Hw & ->)|(i & d0 & -> & _ & _ & ->)]].
  - intros Hd'. rewrite Hd in Hd'. injection Hd' as <-.
    split; intros _; repeat split.
  - destruct (decide (i = id)) as [->|Hne].
    + rewrite lookup_put_drive. intros Hd'. injection Hd' as <-.
      rewrite Hd in Hd0. injection Hd0 as <-.
      destruct req; simpl in Hw; try contradiction;
        (split; [intros (j & [?|?]); try discriminate|intros ?; try discriminate]).
      * destruct Hw as ((u & p & ->) & _). repeat split.
      * destruct Hw as (-> & _). repeat split.
      * destruct Hw as (c & ->). repeat split.
      * rewrite Hw. repeat split.
    + rewrite lookup_put_drive_ne by exact Hne.
      intros Hd'. rewrite Hd in Hd'. injection Hd' as <-.
      split; intros _; repeat split.
  - intros _. split; [intros (j & [?|?]); discriminate|discriminate].
Qed.

(** X13: No request but create brings a negative seat count into the store:
    join refuses below one seat, update refuses a negative count, and the
    other routes do not lower it. *)
Theorem seats_nonneg_preserved ctx st req :
  seats_nonneg st ->
  (forall b, req = CreateDrive b -> 0 <= default 0 (Body.seats b)) ->
  seats_nonneg (snd (handle valid_oid accepts updates globals ctx st req)).
Proof.
  intros Hst Hcreate.
  destruct (handle_effect ctx st req)
    as [->|[(i & d0 & d1 & Hi & Hd0 & Hw & ->)|(i & d0 & -> & _ & _ & ->)]].
  - exact Hst.
  - unfold seats_nonneg. cbn [drives put_drive with_drives].
    apply map_Forall_insert_2; [|exact Hst].
    pose proof (map_Forall_lookup_1 _ _ _ _ Hst Hd0) as H0. simpl in H0.
    destruct req; simpl in Hw; try contradiction.
    + destruct Hw as ((u & ->) & _ & Hs). exact Hs.
    + destruct Hw as ((u & p & ->) & _ & Hs). cbn [after_join Drive.seats].
      apply round_nonneg. lia.
    + destruct Hw as (-> & _). cbn [after_leave Drive.seats].
      apply round_nonneg. lia.
    + destruct Hw as (c & ->). exact H0.
    + rewrite Hw. exact H0.
  - unfold seats_nonneg. cbn [drives with_drives]. apply map_Forall_delete, Hst.
Qed.

(** X15: Update by the owner, with a body that passes validation, is refused
    with 400 "Enter positive number of seats" exactly when the seat count is
    negative (zero is let through); the refusal stores nothing. *)
Theorem update_negative_seats_iff ctx st id d b z :
  valid_oid id = true -> drives st !! id = Some d ->
  Drive.user d = caller ctx ->
  validate_update (curr ctx) b = [] ->
  Body.seats b = Some z ->
  (z < 0 ->
   update_drive valid_oid updates ctx st id b
   = (status_json 400 "Enter positive number of seats", st))
  /\ (fst (update_drive valid_oid updates ctx st id b)
      = status_json 400 "Enter positive number of seats" -> z < 0).
Proof.
  intros Hv Hd Ho Hval Hz. route. rewrite Hval, Hv. simpl. rewrite Hd, Hz.
  rewrite Ho, String.eqb_refl. simpl.
  destruct (Z.ltb_spec z 0) as [Hneg|Hpos]; simpl.
  - split; [reflexivity|intros _; exact Hneg].
  - split; [lia|].
    destruct (users st !! caller ctx); simpl; [|discriminate].
    destruct (updates _); simpl; discriminate.
Qed.

(** ** Edge cases of the comment routes *)

(** X16: A comment id that names no comment of the drive is answered 404
    "Comment does not exist". *)
Theorem remove_comment_unknown ctx st id cid d :
  valid_oid id = true -> drives st !! id = Some d ->
  List.find (fun c => String.eqb (Comment.id c) cid) (Drive.comments d) = None ->
  remove_comment valid_oid accepts ctx st id cid
  = (status_json 404 "Comment does not exist", st).
Proof.
  intros Hv Hd Hc. route. rewrite Hv. simpl. rewrite Hd. simpl. rewrite Hc.
  reflexivity.
Qed.

(** X17: The comment routes have no test for a missing drive: a well-formed id
    that names no drive is answered 500 "Server Error". *)
Theorem comment_routes_missing_drive ctx st id :
  valid_oid id = true -> drives st !! id = None ->
  (forall cid,
     remove_comment valid_oid accepts ctx st id cid = (server_error, st))
  /\ (forall text, validate_comment text = [] ->
        add_comment valid_oid accepts globals ctx st id text = (server_error, st)).
Proof.
  intros Hv Hd. split.
  - intros cid. route. rewrite Hv. simpl. rewrite Hd. reflexivity.
  - intros text Hval. route.
    remember (existsb (String.eqb "Post") (module_scope ++ globals)) as bound.
    rewrite Hval, Hv. simpl. rewrite Hd.
    destruct bound; simpl; [|reflexivity].
    destruct (users st !! caller ctx); reflexivity.
Qed.

End Frames.

Section Statuses.
Variable valid_oid : string -> bool.
Variable accepts : Drive.t -> bool.
Variable updates : Drive.t -> bool.
Variable globals : list string.

(** X18: Each route answers with one of the statuses listed for it: reading a
    drive never answers 400 or 500, deleting never 500, removing a comment
    never 400, and only update, delete and remove-comment answer 401. *)
Theorem handle_status ctx st req :
  In (status (fst (handle valid_oid accepts updates globals ctx st req)))
     (route_statuses req).
Proof.
  destruct req as [id|b|id b|id|id|id|id text|id cid]; cbn [handle route_statuses].
  - route. destruct (valid_oid id); simpl; [|pick].
    destruct (drives st !! id); pick.
  - rewrite (create_drive_eq accepts ctx st b).
    destruct (errors_isEmpty _); pick.
  - route. destruct (validate_update (curr ctx) b); simpl; [|pick].
    destruct (valid_oid id); simpl; [|pick].
    destruct (drives st !! id); simpl; [|pick].
    destruct (negb _); simpl; [pick|].
    destruct (_ <? 0); simpl; [pick|].
    destruct (users st !! caller ctx); simpl; [|pick].
    destruct (updates _); pick.
  - route. destruct (valid_oid id); simpl; [|pick].
    destruct (drives st !! id); simpl; [|pick].
    destruct (negb _); pick.
  - destruct (join_drive_inv valid_oid accepts ctx st id)
      as [_|(d & u & p & _ & _ & _ & _ & _ & _ & ->)]; [|pick].
    route. destruct (valid_oid id); simpl; [|pick].
    destruct (drives st !! id) as [d|]; simpl; [|pick].
    destruct (users st !! caller ctx) as [u|].
    + rewrite filter_try_found. simpl.
      destruct (0 <? _)%nat; simpl; [pick|].
      destruct (_ <? 1); simpl; [pick|].
      destruct (profiles st !! caller ctx); simpl; [|pick].
      destruct (accepts _); pick.
    + rewrite filter_try_missing. destruct (Drive.group d); simpl; [|pick].
      destruct (_ <? 1); pick.
  - route. destruct (valid_oid id); simpl; [|pick].
    destruct (drives st !! id); simpl; [|pick].
    destruct (_ =? 0)%nat; simpl; [pick|].
    destruct (accepts _); pick.
  - route.
    remember (existsb (String.eqb "Post") (module_scope ++ globals)) as bound.
    destruct (validate_comment text); simpl; [|pick].
    destruct (valid_oid id); simpl; [|pick].
    destruct bound; simpl; [|pick].
    destruct (users st !! caller ctx); simpl; [|pick].
    destruct (drives st !! id); simpl; [|pick].
    destruct (accepts _); pick.
  - route. destruct (valid_oid id); simpl; [|pick].
    destruct (drives st !! id); simpl; [|pick].
    destruct (List.find _ _); simpl; [|pick].
    destruct (negb _); simpl; [pick|].
    destruct (accepts _); pick.
Qed.

End Statuses.

(** ** The listings *)

Section ListingProperties.
Variable valid_oid : string -> bool.
Variable accepts : Drive.t -> bool.
Variable toDate : string -> Z.
Implicit Types (ctx : Context) (st : Store) (id : string) (d : Drive.t).

Lemma insert_desc_perm e l : Permutation (insert_desc toDate e l) (e :: l).
Proof.
  induction l as [|x r IH]; simpl; [reflexivity|].
  destruct (leaving toDate x <=? leaving toDate e); [reflexivity|].
  rewrite IH. apply perm_swap.
Qed.

Lemma sort_desc_perm l : Permutation (sort_desc toDate l) l.
Proof.
  induction l as [|x r IH]; simpl; [reflexivity|].
  rewrite insert_desc_perm. apply perm_skip, IH.
Qed.

Lemma insert_desc_sorted e l :
  latest_first toDate l -> latest_first toDate (insert_desc toDate e l).
Proof.
  unfold latest_first. induction l as [|x r IH]; simpl; intros Hs.
  - repeat constructor.
  - destruct (Z.leb_spec (leaving toDate x) (leaving toDate e)) as [Hle|Hgt].
    + constructor; [exact Hs|]. constructor. exact Hle.
    + apply Sorted_inv in Hs as [Hr Hhd]. constructor; [apply IH, Hr|].
      destruct r as [|y r']; simpl.
      * constructor. lia.
      * destruct (leaving toDate y <=? leaving toDate e).
        -- constructor. lia.
        -- constructor. apply HdRel_inv in Hhd. exact Hhd.
Qed.

Lemma sort_desc_sorted l : latest_first toDate (sort_desc toDate l).
Proof.
  induction l as [|x r IH]; simpl; [constructor|].
  apply insert_desc_sorted, IH.
Qed.

Lemma NoDup_list_filter {A} (f : A -> bool) (l : list A) :
  NoDup l -> NoDup (List.filter f l).
Proof.
  induction l as [|x r IH]; simpl; [auto|].
  intros Hnd. apply NoDup_cons in Hnd as [Hx Hr].
  destruct (f x); [|apply IH, Hr].
  apply NoDup_cons. split; [|apply IH, Hr].
  intros Hin. apply Hx. apply list_elem_of_In.
  apply list_elem_of_In, filter_In in Hin. tauto.
Qed.

(** What a sorted query answers: the matching documents of the store, each
    once, latest departure first. *)
Lemma find_sorted_spec query st :
  (forall id d,
     In (id, d) (find_sorted toDate query st)
     <-> drives st !! id = Some d /\ query d = true)
  /\ NoDup (find_sorted toDate query st)
  /\ latest_first toDate (find_sorted toDate query st).
Proof.
  unfold find_sorted. split; [|split].
  - intros id d. split.
    + intros Hin. apply (Permutation_in _ (sort_desc_perm _)) in Hin.
      apply filter_In in Hin as [Hin Hq]. split; [|exact Hq].
      apply elem_of_map_to_list, list_elem_of_In, Hin.
    + intros [Hd Hq].
      apply (Permutation_in _ (Permutation_sym (sort_desc_perm _))).
      apply filter_In. split; [|exact Hq].
      apply list_elem_of_In, elem_of_map_to_list, Hd.
  - rewrite sort_desc_perm. apply NoDup_list_filter, NoDup_map_to_list.
  - apply sort_desc_sorted.
Qed.

(** X19: The list of active drives holds exactly the drives of the store that
    leave at or after the request's time and have a seat left, each once,
    latest departure first; the request is answered 200. *)
Theorem get_drives_spec ctx st :
  fst (get_drives toDate ctx st) = 200
  /\ (forall id d,
        In (id, d) (snd (get_drives toDate ctx st))
        <-> drives st !! id = Some d
            /\ now ctx <= toDate (Drive.leavingDate d) /\ 0 < Drive.seats d)
  /\ NoDup (snd (get_drives toDate ctx st))
  /\ latest_first toDate (snd (get_drives toDate ctx st)).
Proof.
  destruct (find_sorted_spec (active toDate (now ctx)) st) as (Hin & Hnd & Hs).
  split; [reflexivity|]. split; [|split; assumption].
  intros id d. cbn [snd get_drives]. rewrite Hin. unfold active.
  rewrite andb_true_iff, Z.leb_le, Z.ltb_lt. tauto.
Qed.

(** X20: The dashboard holds exactly the drives whose group has an entry of the
    caller, each once, latest departure first, whether they are full or
    past. *)
Theorem get_dashboard_spec ctx st :
  fst (get_dashboard toDate ctx st) = 200
  /\ (forall id d,
        In (id, d) (snd (get_dashboard toDate ctx st))
        <-> drives st !! id = Some d /\ In (caller ctx) (group_users d))
  /\ NoDup (snd (get_dashboard toDate ctx st))
  /\ latest_first toDate (snd (get_dashboard toDate ctx st)).
Proof.
  destruct (find_sorted_spec (is_member (caller ctx)) st) as (Hin & Hnd & Hs).
  split; [reflexivity|]. split; [|split; assumption].
  intros id d. cbn [snd get_dashboard]. rewrite Hin. unfold is_member.
  rewrite (existsb_eqb_In Member.user). reflexivity.
Qed.

(** X21: A drive joined shows on the caller's dashboard; once left, with at most
    one entry per user in its group, it no longer does. *)
Theorem dashboard_follows_membership ctx ctx' st id res st' :
  caller ctx' = caller ctx ->
  (join_drive valid_oid accepts ctx st id = (res, st') -> status res = 200 ->
   exists d', In (id, d') (snd (get_dashboard toDate ctx' st')))
  /\ (leave_drive valid_oid accepts ctx st id = (res, st') -> status res = 200 ->
      (forall d, drives st !! id = Some d -> NoDup (group_users d)) ->
      forall d', ~ In (id, d') (snd (get_dashboard toDate ctx' st'))).
Proof.
  intros Hc. split.
  - intros Hjoin H200.
    destruct (join_drive_inv valid_oid accepts ctx st id)
      as [[_ Hs]|(d & u & p & _ & _ & _ & _ & _ & _ & Heq)].
    + rewrite Hjoin in Hs. contradiction.
    + rewrite Hjoin in Heq. injection Heq as -> ->.
      exists (after_join ctx u p d).
      apply (proj1 (proj2 (get_dashboard_spec ctx' _))).
      split; [apply lookup_put_drive|]. rewrite Hc. left. reflexivity.
  - intros Hleave H200 Hnd d' Hin.
    destruct (leave_drive_inv valid_oid accepts ctx st id)
      as [[_ Hs]|(d & _ & Hd & _ & Heq)].
    + rewrite Hleave in Hs. contradiction.
    + rewrite Hleave in Heq. injection Heq as -> ->.
      apply (proj1 (proj2 (get_dashboard_spec ctx' _))) in Hin as [Hd' Hmem].
      rewrite lookup_put_drive in Hd'. injection Hd' as <-.
      rewrite Hc in Hmem. apply (existsb_eqb_In Member.user) in Hmem.
      unfold after_leave, remove_first_member in Hmem. simpl in Hmem.
      rewrite (remove_first_gone Member.user) in Hmem by exact (Hnd d Hd).
      discriminate.
Qed.

(** X22: The join that takes the last seat takes the drive off the list of
    active drives; the leave that frees a seat of a full drive puts it on
    the list of every request made no later than its departure. *)
Theorem last_seat_and_listing ctx ctx' st id d res st' :
  drives st !! id = Some d ->
  (Drive.seats d = 1 ->
   join_drive valid_oid accepts ctx st id = (res, st') -> status res = 200 ->
   forall d', ~ In (id, d') (snd (get_drives toDate ctx' st')))
  /\ (Drive.seats d = 0 ->
      leave_drive valid_oid accepts ctx st id = (res, st') -> status res = 200 ->
      now ctx' <= toDate (Drive.leavingDate d) ->
      (forall d', ~ In (id, d') (snd (get_drives toDate ctx' st)))
      /\ exists d', In (id, d') (snd (get_drives toDate ctx' st'))
                    /\ Drive.seats d' = 1).
Proof.
  intros Hd. split.
  - intros H1 Hjoin H200 d' Hin.
    destruct (join_drive_inv valid_oid accepts ctx st id)
      as [[_ Hs]|(d0 & u & p & _ & Hd0 & _ & _ & _ & _ & Heq)].
    + rewrite Hjoin in Hs. contradiction.
    + rewrite Hjoin in Heq. injection Heq as -> ->.
      rewrite Hd in Hd0. injection Hd0 as <-.
      apply (proj1 (proj2 (get_drives_spec ctx' _))) in Hin as (Hd' & _ & Hs).
      rewrite lookup_put_drive in Hd'. injection Hd' as <-.
      cbn [after_join Drive.seats] in Hs. rewrite H1 in Hs.
      change (JS.minus 1 1) with 0 in Hs. lia.
  - intros H0 Hleave H200 Hnow.
    destruct (leave_drive_inv valid_oid accepts ctx st id)
      as [[_ Hs]|(d0 & _ & Hd0 & _ & Heq)].
    + rewrite Hleave in Hs. contradiction.
    + rewrite Hleave in Heq. injection Heq as -> ->.
      rewrite Hd in Hd0. injection Hd0 as <-. split.
      * intros d' Hin.
        apply (proj1 (proj2 (get_drives_spec ctx' _))) in Hin as (Hd' & _ & Hs).
        rewrite Hd in Hd'. injection Hd' as <-. lia.
      * assert (Hone : Drive.seats (after_leave ctx d) = 1)
          by (cbn [after_leave Drive.seats]; rewrite H0; reflexivity).
        exists (after_leave ctx d). split; [|exact Hone].
        apply (proj1 (proj2 (get_drives_spec ctx' _))).
        split; [apply lookup_put_drive|]. rewrite Hone.
        split; [exact Hnow|lia].
Qed.

End ListingProperties.

(** ** The drive card *)

Lemma filter_try_loaded {U} (u : U) (p : U -> Member.t -> bool)
    (l : list Member.t) :
  filter_try (fun object => let* x := deref (Some u) in Ok (p x object)) l
  = Ok (List.filter (p u) l).
Proof.
  induction l as [|a r IH]; [reflexivity|].
  cbn [filter_try]. rewrite IH. reflexivity.
Qed.

Lemma inArray_loaded u l :
  inArray (Auth.mk false (Some u)) l
  = Ok (Some (existsb (fun j => String.eqb (Member.user j) (Auth._id u)) l)).
Proof.
  unfold inArray. cbn [negb Auth.loading Auth.user].
  rewrite (filter_try_loaded u
             (fun x object => String.eqb (Member.user object) (Auth._id x))).
  cbn [bind]. rewrite filter_length_existsb. reflexivity.
Qed.

(** X23: While the user is loading the card shows neither the join/leave button
    nor the edit and delete buttons; loaded without a user, rendering
    throws; loaded with a user, it shows edit and delete to the owner and
    the join/leave button to anyone else, labelled "Leave" exactly when the
    viewer has an entry in the group.  The counters are the sizes of the
    group and of the comment list. *)
Theorem DriveItem_buttons auth drive :
  DriveItem auth drive
  = match Auth.loading auth, Auth.user auth with
    | true, _ =>
        Ok (mkCard None (length (Drive.group drive))
              (length (Drive.comments drive)) false)
    | false, None => Throw TypeError
    | false, Some u =>
        Ok (mkCard
              (if String.eqb (Auth._id u) (Drive.user drive) then None
               else Some (if is_member (Auth._id u) drive
                          then "Leave" else "Join"))
              (length (Drive.group drive)) (length (Drive.comments drive))
              (String.eqb (Auth._id u) (Drive.user drive)))
    end.
Proof.
  destruct auth as [[|] [u|]]; unfold DriveItem;
    cbn [Auth.loading Auth.user negb deref bind]; try reflexivity.
  rewrite (String.eqb_sym (Drive.user drive) (Auth._id u)).
  destruct (String.eqb (Auth._id u) (Drive.user drive)); cbn [negb bind];
    [reflexivity|].
  rewrite inArray_loaded. reflexivity.
Qed.

Section CardAndRouter.
Variable valid_oid : string -> bool.
Variable accepts : Drive.t -> bool.

Lemma join_already_joined_iff ctx st id d usr :
  valid_oid id = true -> drives st !! id = Some d ->
  users st !! caller ctx = Some usr ->
  fst (join_drive valid_oid accepts ctx st id)
  = status_json 400 "Drive already joined"
  <-> is_member (caller ctx) d = true.
Proof.
  intros Hv Hd Hu. route. rewrite Hv. cbn [bind]. rewrite Hd, Hu.
  rewrite filter_try_found. cbn [bind]. rewrite filter_length_existsb.
  fold (is_member (caller ctx) d).
  destruct (is_member (caller ctx) d); cbn [fst]; [tauto|].
  split; [|discriminate]. intros H. exfalso. revert H.
  destruct (Drive.seats d <? 1); cbn [fst]; [discriminate|].
  cbn [deref bind]. destruct (profiles st !! caller ctx); cbn [fst];
    [|discriminate].
  destruct (accepts _); cbn [bind fst]; discriminate.
Qed.

(** X24: The card and the join route agree: for a loaded viewer who is not the
    owner and whose user document exists, the button reads "Leave" exactly
    when a join request of that viewer would be refused with "Drive already
    joined", and "Join" otherwise. *)
Theorem card_agrees_with_join ctx st id drive u usr card :
  valid_oid id = true -> drives st !! id = Some drive ->
  users st !! caller ctx = Some usr ->
  Auth._id u = caller ctx -> Auth._id u <> Drive.user drive ->
  DriveItem (Auth.mk false (Some u)) drive = Ok card ->
  (membership_button card = Some "Leave"
   <-> fst (join_drive valid_oid accepts ctx st id)
       = status_json 400 "Drive already joined")
  /\ (membership_button card = Some "Join"
      <-> fst (join_drive valid_oid accepts ctx st id)
          <> status_json 400 "Drive already joined").
Proof.
  intros Hv Hd Hu Hid Hno Hcard.
  rewrite DriveItem_buttons in Hcard. cbn [Auth.loading Auth.user] in Hcard.
  rewrite (proj2 (String.eqb_neq _ _) Hno) in Hcard. injection Hcard as <-.
  cbn [membership_button]. rewrite Hid.
  rewrite (join_already_joined_iff ctx st id drive usr Hv Hd Hu).
  destruct (is_member (caller ctx) drive); split; split; intros H;
    try reflexivity; try discriminate; try congruence.
Qed.

End CardAndRouter.

(** ** Registration *)

Lemma find_by_email_Some email accounts e :
  find_by_email email accounts = Some e ->
  accounts !! fst e = Some (snd e) /\ Account.email (snd e) = email.
Proof.
  unfold find_by_email. intros H. apply find_some in H as [Hin Heq].
  split; [|apply String.eqb_eq, Heq].
  apply elem_of_map_to_list. destruct e. apply list_elem_of_In, Hin.
Qed.

Lemma find_by_email_None email accounts :
  find_by_email email accounts = None
  <-> forall i a, accounts !! i = Some a -> Account.email a <> email.
Proof.
  unfold find_by_email. split.
  - intros H i a Hia Heq.
    pose proof (find_none _ _ H (i, a)) as Hn. simpl in Hn.
    rewrite (proj2 (String.eqb_eq _ _) Heq) in Hn.
    assert (true = false); [|discriminate]. apply Hn.
    apply list_elem_of_In, elem_of_map_to_list, Hia.
  - intros H. destruct (List.find _ _) as [e|] eqn:E; [|reflexivity].
    exfalso. apply (find_by_email_Some email accounts e) in E as [Hl He].
    exact (H _ _ Hl He).
Qed.

Section RegisterProperties.
Variable isEmail : string -> bool.
Variable isMobilePhone : string -> bool.
Variable gravatar_url : string -> string.
Variable bcrypt_hash : string -> string -> string.
Variable jwt_sign : string -> string -> string.
Variable accepts_user : Account.t -> bool.

Implicit Types (rc : RegContext) (accounts : gmap string Account.t).

(** X25: A body that passes validation, with the email of a stored account, is
    refused with 400 "User already exists" and nothing is stored. *)
Theorem register_duplicate_email rc accounts b i a :
  validate_register isEmail isMobilePhone b = [] ->
  accounts !! i = Some a ->
  Account.email a = default "" (Registration.email b) ->
  register isEmail isMobilePhone gravatar_url bcrypt_hash jwt_sign
    accepts_user rc accounts b
  = (mkRegResponse 400 (RegMessages ["User already exists"]), accounts).
Proof.
  intros Hval Hia He. unfold register. rewrite Hval. cbn [errors_isEmpty negb].
  destruct (find_by_email _ accounts) eqn:E; [reflexivity|].
  exfalso. exact (proj1 (find_by_email_None _ _) E i a Hia He).
Qed.

(** X26: The registration answers 200 exactly when the body passes validation,
    no stored account has the email, the fresh id is unused, the store
    takes the account and the secret is configured; it then answers the
    token signed for the fresh id and stores, under that id, the account
    with the hashed password. *)
Theorem register_success_iff rc accounts b :
  (reg_status (fst (register isEmail isMobilePhone gravatar_url bcrypt_hash jwt_sign
    accepts_user rc accounts b)) = 200
   <-> validate_register isEmail isMobilePhone b = []
       /\ (forall i a, accounts !! i = Some a ->
             Account.email a <> default "" (Registration.email b))
       /\ accounts !! reg_fresh rc = None
       /\ accepts_user (new_account gravatar_url bcrypt_hash rc b) = true
       /\ is_Some (jwtSecret rc))
  /\ (reg_status (fst (register isEmail isMobilePhone gravatar_url bcrypt_hash jwt_sign
    accepts_user rc accounts b)) = 200 ->
      exists secret,
        jwtSecret rc = Some secret
        /\ register isEmail isMobilePhone gravatar_url bcrypt_hash jwt_sign
    accepts_user rc accounts b
           = (mkRegResponse 200 (RegToken (jwt_sign (reg_fresh rc) secret)),
              <[reg_fresh rc := new_account gravatar_url bcrypt_hash rc b]> accounts)
        /\ Account.password (new_account gravatar_url bcrypt_hash rc b)
           = bcrypt_hash (default "" (Registration.password b)) (salt rc)).
Proof.
  unfold register.
  destruct (validate_register isEmail isMobilePhone b) eqn:Hval; cbn [errors_isEmpty negb fst reg_status].
  2:{ split; [split; [discriminate|intros (H & _); discriminate]|discriminate]. }
  destruct (find_by_email _ accounts) as [e|] eqn:E; cbn [fst reg_status].
  { apply find_by_email_Some in E as [Hl He].
    split; [split; [discriminate|]|discriminate].
    intros (_ & Hfree & _). exfalso. exact (Hfree _ _ Hl He). }
  pose proof (proj1 (find_by_email_None _ _) E) as Hfree.
  destruct (accounts !! reg_fresh rc) eqn:Hf; cbn [fst reg_status].
  { split; [split; [discriminate|intros (_ & _ & H & _); discriminate]|discriminate]. }
  destruct (accepts_user _) eqn:Ha; cbn [fst reg_status].
  2:{ split; [split; [discriminate|intros (_ & _ & _ & H & _); discriminate]
             |discriminate]. }
  destruct (jwtSecret rc) as [s0|] eqn:Hs; cbn [fst reg_status].
  - split.
    + split; [intros _|reflexivity].
      repeat split; try assumption. exists s0. reflexivity.
    + intros _. exists s0. repeat split.
  - split; [split; [discriminate|]|discriminate].
    intros (_ & _ & _ & _ & [? H]). discriminate.
Qed.

(** X27: Registration keeps emails unique among the stored accounts. *)
Theorem register_unique_emails rc accounts b :
  unique_emails accounts ->
  unique_emails (snd (register isEmail isMobilePhone gravatar_url bcrypt_hash jwt_sign
    accepts_user rc accounts b)).
Proof.
  intros Hu. unfold register.
  destruct (validate_register isEmail isMobilePhone b); cbn [errors_isEmpty negb snd]; [|exact Hu].
  destruct (find_by_email _ accounts) eqn:E; [exact Hu|].
  destruct (accounts !! reg_fresh rc) eqn:Hf; [exact Hu|].
  destruct (accepts_user _); [|exact Hu].
  assert (Hnew : unique_emails (<[reg_fresh rc := new_account gravatar_url bcrypt_hash rc b]> accounts)).
  { pose proof (proj1 (find_by_email_None _ _) E) as Hfree.
    intros i j x y Hi Hj Hxy.
    destruct (decide (reg_fresh rc = i)) as [<-|Hni];
      destruct (decide (reg_fresh rc = j)) as [<-|Hnj]; [reflexivity| | |].
    - rewrite lookup_insert_eq in Hi. injection Hi as <-.
      rewrite lookup_insert_ne in Hj by exact Hnj.
      exfalso. apply (Hfree j y Hj). rewrite <- Hxy. reflexivity.
    - rewrite lookup_insert_eq in Hj. injection Hj as <-.
      rewrite lookup_insert_ne in Hi by exact Hni.
      exfalso. apply (Hfree i x Hi). rewrite Hxy. reflexivity.
    - rewrite lookup_insert_ne in Hi by exact Hni.
      rewrite lookup_insert_ne in Hj by exact Hnj.
      exact (Hu i j x y Hi Hj Hxy). }
  destruct (jwtSecret rc); exact Hnew.
Qed.

(** X28: Without a configured secret the account is stored and the answer is
    still 500 "Server error"; registering the same email again, whatever the
    configuration then, is refused with "User already exists". *)
Theorem register_without_secret rc rc' accounts b :
  jwtSecret rc = None ->
  validate_register isEmail isMobilePhone b = [] ->
  (forall i a, accounts !! i = Some a ->
     Account.email a <> default "" (Registration.email b)) ->
  accounts !! reg_fresh rc = None ->
  accepts_user (new_account gravatar_url bcrypt_hash rc b) = true ->
  register isEmail isMobilePhone gravatar_url bcrypt_hash jwt_sign
    accepts_user rc accounts b
  = (mkRegResponse 500 (RegSend "Server error"),
     <[reg_fresh rc := new_account gravatar_url bcrypt_hash rc b]> accounts)
  /\ register isEmail isMobilePhone gravatar_url bcrypt_hash jwt_sign
    accepts_user rc' (snd (register isEmail isMobilePhone gravatar_url bcrypt_hash jwt_sign
    accepts_user rc accounts b)) b
     = (mkRegResponse 400 (RegMessages ["User already exists"]),
        <[reg_fresh rc := new_account gravatar_url bcrypt_hash rc b]> accounts).
Proof.
  intros Hs Hval Hfree Hf Ha.
  assert (Hfirst : register isEmail isMobilePhone gravatar_url bcrypt_hash jwt_sign
    accepts_user rc accounts b
                   = (mkRegResponse 500 (RegSend "Server error"),
                      <[reg_fresh rc := new_account gravatar_url bcrypt_hash rc b]> accounts)).
  { unfold register. rewrite Hval. cbn [errors_isEmpty negb].
    rewrite (proj2 (find_by_email_None _ _) Hfree), Hf, Ha, Hs. reflexivity. }
  split; [exact Hfirst|]. rewrite Hfirst. cbn [snd].
  apply (register_duplicate_email rc' _ b (reg_fresh rc) (new_account gravatar_url bcrypt_hash rc b)).
  - exact Hval.
  - apply lookup_insert_eq.
  - reflexivity.
Qed.

(** X29: With the other fields valid, the validation passes exactly when the
    password has at least six characters: six are enough. *)
Theorem register_password_length b :
  isEmpty (Registration.name b) = false ->
  isEmail (default "" (Registration.email b)) = true ->
  isEmpty (Registration.phone b) = false ->
  isMobilePhone (default "" (Registration.phone b)) = true ->
  validate_register isEmail isMobilePhone b = []
  <-> (6 <= String.length (default "" (Registration.password b)))%nat.
Proof.
  intros Hn He Hp Hm. unfold validate_register, not_isEmpty, holds.
  rewrite Hn, He, Hp, Hm. cbn [app].
  destruct (Nat.leb_spec 6 (String.length (default "" (Registration.password b)))).
  - split; [intros _; assumption|reflexivity].
  - split; [discriminate|lia].
Qed.

End RegisterProperties.

(** ** The further properties on the sample data *)

Lemma rendered_date_accepted_iff_witness :
  leavingDate_custom_create june15 "06/15/2025" = Pass
  /\ leavingDate_custom_create june15 "04/20/2025"
     = Thrown "Please Enter a Current or Future Date".
Proof.
  split.
  - apply (proj2 (rendered_date_accepted_iff june15 6 15 2025
                    ltac:(lia) ltac:(lia) ltac:(lia))).
    simpl. lia.
  - pose proof (proj1 (rendered_date_accepted_iff june15 4 20 2025
                         ltac:(lia) ltac:(lia) ltac:(lia))) as H.
    simpl in H.
    destruct (leavingDate_custom_create june15 "04/20/2025") eqn:E.
    + specialize (H E). lia.
    + vm_compute in E. exact (eq_sym E).
Defined.

Lemma leave_not_joined_witness :
  leave_drive hex24 accept_all bob_ctx sample_store drive1_id
  = (status_json 400 "Drive not joined", sample_store).
Proof.
  exact (leave_not_joined hex24 accept_all bob_ctx sample_store drive1_id drive1
           eq_refl eq_refl eq_refl).
Defined.

Lemma join_then_leave_restores_witness :
  status (fst (join_drive hex24 accept_all bob_ctx open_store drive3_id)) = 200
  /\ leave_drive hex24 accept_all bob_ctx joined_store drive3_id
     = (json (JsonGroup [alice_entry]), open_store).
Proof.
  exact (join_then_leave_restores hex24 accept_all bob_ctx bob_ctx open_store
           drive3_id drive3 bob rider eq_refl eq_refl eq_refl eq_refl eq_refl
           ltac:(simpl; lia) ltac:(vm_compute; discriminate)
           eq_refl eq_refl eq_refl).
Defined.

Lemma join_twice_refused_witness :
  status (fst (join_drive hex24 accept_all bob_ctx open_store drive3_id)) = 200
  /\ join_drive hex24 accept_all bob_ctx joined_store drive3_id
     = (status_json 400 "Drive already joined", joined_store).
Proof.
  split; [reflexivity|].
  exact (join_twice_refused hex24 accept_all bob_ctx bob_ctx open_store drive3_id
           _ joined_store eq_refl eq_refl eq_refl).
Defined.

Lemma joined_group_unique :
  NoDup (group_users (after_join bob_ctx bob rider drive3)).
Proof. apply (bool_decide_unpack _). vm_compute. exact I. Qed.

Lemma leave_twice_refused_witness :
  let st' := snd (leave_drive hex24 accept_all bob_ctx joined_store drive3_id) in
  status (fst (leave_drive hex24 accept_all bob_ctx joined_store drive3_id)) = 200
  /\ leave_drive hex24 accept_all bob_ctx st' drive3_id
     = (status_json 400 "Drive not joined", st').
Proof.
  split; [reflexivity|].
  exact (proj2 (leave_twice_refused hex24 accept_all bob_ctx bob_ctx joined_store
                  drive3_id (after_join bob_ctx bob rider drive3) _ _
                  eq_refl joined_group_unique eq_refl eq_refl eq_refl)).
Defined.

Lemma delete_then_get_witness :
  let r := delete_drive hex24 alice_ctx sample_store drive1_id in
  status (fst r) = 200
  /\ get_drive hex24 (snd r) drive1_id
     = (status_json 404 "Drive not found", snd r).
Proof.
  split; [reflexivity|].
  exact (proj1 (delete_then_get hex24 alice_ctx sample_store drive1_id
                  _ _ eq_refl eq_refl)).
Defined.

Lemma owner_never_changes_witness :
  let d' := after_update alice_ctx alice good_body drive1 in
  drives (snd (handle hex24 accept_all accept_all source_globals alice_ctx sample_store
                 (UpdateDrive drive1_id good_body))) !! drive1_id = Some d'
  /\ Drive.user d' = alice_id /\ Drive.name d' = "Alice" /\ Drive.date d' = 1000.
Proof.
  split; [reflexivity|].
  exact (owner_never_changes hex24 accept_all accept_all source_globals alice_ctx
           sample_store (UpdateDrive drive1_id good_body) drive1_id drive1 _
           eq_refl eq_refl).
Defined.

Lemma membership_and_comment_frames_witness :
  same_trip drive3 (after_join bob_ctx bob rider drive3)
  /\ Drive.comments (after_join bob_ctx bob rider drive3) = Drive.comments drive3.
Proof.
  apply (proj1 (membership_and_comment_frames hex24 accept_all accept_all source_globals
                  bob_ctx open_store (JoinDrive drive3_id) drive3_id drive3
                  (after_join bob_ctx bob rider drive3) eq_refl eq_refl)).
  exists drive3_id. left. reflexivity.
Defined.

Lemma open_store_seats_nonneg : seats_nonneg open_store.
Proof.
  unfold seats_nonneg, open_store. cbn [drives put_drive with_drives sample_store].
  repeat (apply map_Forall_insert_2; [simpl; lia|]). apply map_Forall_empty.
Qed.

Lemma seats_nonneg_preserved_witness :
  seats_nonneg open_store /\ seats_nonneg joined_store.
Proof.
  split; [exact open_store_seats_nonneg|].
  apply (seats_nonneg_preserved hex24 accept_all accept_all source_globals bob_ctx
           open_store (JoinDrive drive3_id) open_store_seats_nonneg).
  intros b H. discriminate H.
Defined.

Lemma update_negative_seats_iff_witness :
  update_drive hex24 accept_all alice_ctx sample_store drive1_id negative_body
  = (status_json 400 "Enter positive number of seats", sample_store).
Proof.
  apply (proj1 (update_negative_seats_iff hex24 accept_all alice_ctx sample_store
                  drive1_id drive1 negative_body (-2) eq_refl eq_refl eq_refl
                  eq_refl eq_refl)).
  lia.
Defined.

Lemma remove_comment_unknown_witness :
  remove_comment hex24 accept_all bob_ctx sample_store drive1_id
    "5e1f0a0000000000000000c9"
  = (status_json 404 "Comment does not exist", sample_store).
Proof.
  exact (remove_comment_unknown hex24 accept_all bob_ctx sample_store drive1_id
           "5e1f0a0000000000000000c9" drive1 eq_refl eq_refl eq_refl).
Defined.

Lemma comment_routes_missing_drive_witness :
  remove_comment hex24 accept_all bob_ctx sample_store drive2_id
    (Comment.id first_comment)
  = (server_error, sample_store)
  /\ add_comment hex24 accept_all ("Post" :: source_globals) bob_ctx sample_store
       drive2_id (Some "Nice trail")
     = (server_error, sample_store).
Proof.
  destruct (comment_routes_missing_drive hex24 accept_all
              ("Post" :: source_globals) bob_ctx sample_store drive2_id
              eq_refl eq_refl) as [Hr Ha].
  split; [apply Hr|apply Ha; reflexivity].
Defined.

Lemma dashboard_follows_membership_witness :
  (forall d, ~ In (drive3_id, d)
               (snd (get_dashboard sample_toDate bob_ctx open_store)))
  /\ exists d', In (drive3_id, d')
                  (snd (get_dashboard sample_toDate bob_ctx joined_store)).
Proof.
  split.
  - intros d Hin. vm_compute in Hin. exact Hin.
  - exact (proj1 (dashboard_follows_membership hex24 accept_all sample_toDate
                    bob_ctx bob_ctx open_store drive3_id _ joined_store eq_refl)
             eq_refl eq_refl).
Defined.

Lemma last_seat_and_listing_witness :
  In (drive3_id, drive3) (snd (get_drives sample_toDate bob_ctx open_store))
  /\ forall d', ~ In (drive3_id, d')
                  (snd (get_drives sample_toDate bob_ctx joined_store)).
Proof.
  split.
  { assert (H : snd (get_drives sample_toDate bob_ctx open_store)
                = [(drive3_id, drive3)]) by (vm_compute; reflexivity).
    rewrite H. left. reflexivity. }
  exact (proj1 (last_seat_and_listing hex24 accept_all sample_toDate bob_ctx
                  bob_ctx open_store drive3_id drive3 _ joined_store eq_refl)
           eq_refl eq_refl eq_refl).
Defined.

Lemma card_agrees_with_join_witness :
  DriveItem bob_auth drive1
  = Ok (mkCard (Some "Join") 1 2 false)
  /\ fst (join_drive hex24 accept_all bob_ctx sample_store drive1_id)
     <> status_json 400 "Drive already joined".
Proof.
  split; [reflexivity|].
  apply (proj2 (card_agrees_with_join hex24 accept_all bob_ctx sample_store
                  drive1_id drive1 (Auth.mkUser bob_id) bob
                  (mkCard (Some "Join") 1 2 false) eq_refl eq_refl eq_refl
                  eq_refl ltac:(apply String.eqb_neq; reflexivity) eq_refl)).
  reflexivity.
Defined.

Lemma register_duplicate_email_witness :
  register sample_isEmail sample_isMobilePhone sample_gravatar sample_hash
    sample_sign (fun _ => true) reg_ctx sample_accounts alice_registration
  = (mkRegResponse 400 (RegMessages ["User already exists"]), sample_accounts).
Proof.
  exact (register_duplicate_email sample_isEmail sample_isMobilePhone
           sample_gravatar sample_hash sample_sign (fun _ => true) reg_ctx
           sample_accounts alice_registration alice_id alice_account
           eq_refl eq_refl eq_refl).
Defined.

Lemma sample_accounts_unique : unique_emails sample_accounts.
Proof.
  intros i j a b Hi Hj _. unfold sample_accounts in *.
  apply lookup_insert_Some in Hi as [[<- _]|[_ Hi]];
    [|rewrite lookup_empty in Hi; discriminate].
  apply lookup_insert_Some in Hj as [[<- _]|[_ Hj]];
    [reflexivity|rewrite lookup_empty in Hj; discriminate].
Qed.

Lemma register_unique_emails_witness :
  reg_status (fst (register sample_isEmail sample_isMobilePhone sample_gravatar
                     sample_hash sample_sign (fun _ => true) reg_ctx
                     sample_accounts bob_registration)) = 200
  /\ unique_emails
       (snd (register sample_isEmail sample_isMobilePhone sample_gravatar
               sample_hash sample_sign (fun _ => true) reg_ctx sample_accounts
               bob_registration)).
Proof.
  split; [reflexivity|].
  exact (register_unique_emails sample_isEmail sample_isMobilePhone
           sample_gravatar sample_hash sample_sign (fun _ => true) reg_ctx
           sample_accounts bob_registration sample_accounts_unique).
Defined.

Lemma sample_email_free :
  forall i a, sample_accounts !! i = Some a ->
    Account.email a <> default "" (Registration.email bob_registration).
Proof.
  intros i a Hi. unfold sample_accounts in Hi.
  apply lookup_insert_Some in Hi as [[_ <-]|[_ Hi]];
    [|rewrite lookup_empty in Hi; discriminate].
  apply String.eqb_neq. reflexivity.
Qed.

Lemma register_without_secret_witness :
  let r := register sample_isEmail sample_isMobilePhone sample_gravatar
             sample_hash sample_sign (fun _ => true) reg_ctx_no_secret
             sample_accounts bob_registration in
  reg_status (fst r) = 500
  /\ is_Some (snd r !! bob_id)
  /\ reg_status
       (fst (register sample_isEmail sample_isMobilePhone sample_gravatar
               sample_hash sample_sign (fun _ => true) reg_ctx (snd r)
               bob_registration)) = 400.
Proof.
  destruct (register_without_secret sample_isEmail sample_isMobilePhone
              sample_gravatar sample_hash sample_sign (fun _ => true)
              reg_ctx_no_secret reg_ctx sample_accounts bob_registration
              eq_refl eq_refl sample_email_free eq_refl eq_refl) as [H1 H2].
  cbv zeta. rewrite H2, H1. cbn [fst snd reg_status].
  split; [reflexivity|]. split; [|reflexivity].
  eexists. apply lookup_insert_eq.
Defined.

Lemma register_password_length_witness :
  String.length "hunter" = 6%nat
  /\ validate_register sample_isEmail sample_isMobilePhone bob_registration = [].
Proof.
  split; [reflexivity|].
  apply (proj2 (register_password_length sample_isEmail sample_isMobilePhone
                  bob_registration eq_refl eq_refl eq_refl eq_refl)).
  simpl. lia.
Defined.
